(** * Federal regulatory comment bot: store, fetch engine and enrichment

    A shallow embedding of the ingestion-to-notification core of the
    repository:

    - [src/database/db.py]: [upsert_comment_period], [get_closing_soon],
      [mark_posted], [get_period_by_document_id] over the
      [comment_periods] and [bot_posts] tables;
    - [src/scrapers/base.py]: [BaseScraper._rate_limit] and
      [BaseScraper.fetch_page];
    - [src/scrapers/regulations_gov.py]: the pagination loop of
      [RegulationsGovScraper.get_new_comment_periods];
    - [src/scrapers/federal_register.py]: [get_document] and
      [enrich_period].

    Python exceptions are values of [exn]; a call that may raise returns a
    [result].  The SQLite database is an explicit [store] threaded through
    the calls; the network is a [world] holding the clock, the number of
    requests sent so far and the trace of requests and sleeps. *)

From Stdlib Require Import ZArith QArith String Ascii List Lia Lqa.
From stdpp Require Import gmap strings list fin_maps sorting.

Set Warnings "-register-all".
Set Warnings "-clear-no-such-hyp".
Open Scope Z_scope.

(** ** Python results *)

Inductive exn :=
  | ValueError
  | OverflowError
  | TypeError
  | AttributeError
  | KeyError
  | IntegrityError.

Inductive result (A : Type) :=
  | Ok (a : A)
  | Raise (e : exn).
Arguments Ok {A} a.
Arguments Raise {A} e.

(** ** The store ([src/database/db.py]) *)

(** One row of [comment_periods].  The columns are those of the table as
    [src/database/migrate_docket_id.py] declares it.  The eight columns
    that [upsert_comment_period] always writes are fields of their own;
    the nine optional TEXT columns are the finite map [optional], where a
    missing key is SQL NULL.  The two DATE columns written by the upsert
    hold ISO [YYYY-MM-DD] text; the model keeps the day number that text
    denotes, so that SQLite's [date(x)] is the identity and the text order
    of the CHECK constraint is the order of [Z]. *)
Module Period.
Record t := {
  id : Z;
  document_id : string;
  docket_id : string;
  title : string;
  agency_id : string;
  agency_name : string;
  posted_date : Z;
  comment_end_date : Z;
  regulations_url : string;
  optional : gmap string string;
  posted_new : bool;
  posted_7day_reminder : bool;
  posted_3day_reminder : bool;
  posted_last_day : bool;
  created_at : Z;
  updated_at : Z
}.
End Period.

(** The arguments of one call of [upsert_comment_period]: the eight
    positional parameters and [**kwargs].  A keyword whose value is Python
    [None] is [Some None] in [kwargs]. *)
Module Draft.
Record t := {
  document_id : string;
  docket_id : string;
  title : string;
  agency_id : string;
  agency_name : string;
  posted_date : Z;
  comment_end_date : Z;
  regulations_url : string;
  kwargs : gmap string (option string)
}.

Definition with_kwargs (d : t) (kw : gmap string (option string)) : t :=
  {| document_id := document_id d;
     docket_id := docket_id d;
     title := title d;
     agency_id := agency_id d;
     agency_name := agency_name d;
     posted_date := posted_date d;
     comment_end_date := comment_end_date d;
     regulations_url := regulations_url d;
     kwargs := kw |}.
End Draft.

(** Modelled from the spec: the declaration of the [bot_posts] table
    ([schema.sql]) is not part of the sources; a row is the spec's
    DispatchRecord, with the three columns [mark_posted] writes. *)
Record bot_post := {
  comment_period_id : Z;
  post_type : string;
  post_uri : string
}.

(** The database: both tables and the AUTOINCREMENT high-water mark of
    [comment_periods]. *)
Record store := {
  comment_periods : list Period.t;
  bot_posts : list bot_post;
  sqlite_sequence : Z
}.

Definition empty_store : store :=
  {| comment_periods := []; bot_posts := []; sqlite_sequence := 0 |}.

(** The four one-shot flag columns. *)
Inductive flag_field :=
  | F_posted_new
  | F_posted_7day_reminder
  | F_posted_3day_reminder
  | F_posted_last_day.

Definition flag_value (f : flag_field) (r : Period.t) : bool :=
  match f with
  | F_posted_new => Period.posted_new r
  | F_posted_7day_reminder => Period.posted_7day_reminder r
  | F_posted_3day_reminder => Period.posted_3day_reminder r
  | F_posted_last_day => Period.posted_last_day r
  end.

Definition flag_field_eqb (f g : flag_field) : bool :=
  match f, g with
  | F_posted_new, F_posted_new
  | F_posted_7day_reminder, F_posted_7day_reminder
  | F_posted_3day_reminder, F_posted_3day_reminder
  | F_posted_last_day, F_posted_last_day => true
  | _, _ => false
  end.

(** [UPDATE comment_periods SET {field} = 1] on one row. *)
Definition set_flag (f : flag_field) (r : Period.t) : Period.t :=
  {| Period.id := Period.id r;
     Period.document_id := Period.document_id r;
     Period.docket_id := Period.docket_id r;
     Period.title := Period.title r;
     Period.agency_id := Period.agency_id r;
     Period.agency_name := Period.agency_name r;
     Period.posted_date := Period.posted_date r;
     Period.comment_end_date := Period.comment_end_date r;
     Period.regulations_url := Period.regulations_url r;
     Period.optional := Period.optional r;
     Period.posted_new :=
       match f with F_posted_new => true | _ => Period.posted_new r end;
     Period.posted_7day_reminder :=
       match f with
       | F_posted_7day_reminder => true
       | _ => Period.posted_7day_reminder r
       end;
     Period.posted_3day_reminder :=
       match f with
       | F_posted_3day_reminder => true
       | _ => Period.posted_3day_reminder r
       end;
     Period.posted_last_day :=
       match f with F_posted_last_day => true | _ => Period.posted_last_day r end;
     Period.created_at := Period.created_at r;
     Period.updated_at := Period.updated_at r |}.

(** [optional_fields] of [upsert_comment_period]. *)
Definition optional_fields : list string :=
  ["document_type"; "comment_start_date"; "abstract"; "summary";
   "federal_register_url"; "details_url"; "topics"; "keywords";
   "source_url"]%string.

(** [{k: v for k, v in kwargs.items() if k in optional_fields and v is not None}] *)
Definition provided_optional (kwargs : gmap string (option string))
  : gmap string string :=
  omap (λ v : option string, v)
       (filter (λ kv : string * option string, kv.1 ∈ optional_fields) kwargs).

(** The base fields of the statement followed by the provided optional
    ones; the order of the latter is that of the dictionary and has no
    effect on the statement's meaning. *)
Definition fields (d : Draft.t) : list string :=
  (["document_id"; "docket_id"; "title"; "agency_id"; "agency_name";
    "posted_date"; "comment_end_date"; "regulations_url"]%string)
  ++ (map_to_list (provided_optional (Draft.kwargs d))).*1.

(** [CHECK (comment_end_date >= posted_date)] *)
Definition check_dates (posted comment_end : Z) : bool :=
  posted <=? comment_end.

(** The row the INSERT would store: the given columns, NULL for the other
    optional columns, the column defaults for flags and timestamps. *)
Definition inserted_row (d : Draft.t) (rowid now : Z) : Period.t :=
  {| Period.id := rowid;
     Period.document_id := Draft.document_id d;
     Period.docket_id := Draft.docket_id d;
     Period.title := Draft.title d;
     Period.agency_id := Draft.agency_id d;
     Period.agency_name := Draft.agency_name d;
     Period.posted_date := Draft.posted_date d;
     Period.comment_end_date := Draft.comment_end_date d;
     Period.regulations_url := Draft.regulations_url d;
     Period.optional := provided_optional (Draft.kwargs d);
     Period.posted_new := false;
     Period.posted_7day_reminder := false;
     Period.posted_3day_reminder := false;
     Period.posted_last_day := false;
     Period.created_at := now;
     Period.updated_at := now |}.

(** [DO UPDATE SET field=excluded.field, ..., updated_at=CURRENT_TIMESTAMP]
    for every field of the statement but [document_id]: the base columns
    and the provided optional columns take the draft's values, every other
    column keeps the stored one. *)
Definition do_update (d : Draft.t) (now : Z) (old : Period.t) : Period.t :=
  {| Period.id := Period.id old;
     Period.document_id := Period.document_id old;
     Period.docket_id := Draft.docket_id d;
     Period.title := Draft.title d;
     Period.agency_id := Draft.agency_id d;
     Period.agency_name := Draft.agency_name d;
     Period.posted_date := Draft.posted_date d;
     Period.comment_end_date := Draft.comment_end_date d;
     Period.regulations_url := Draft.regulations_url d;
     Period.optional :=
       provided_optional (Draft.kwargs d) ∪ Period.optional old;
     Period.posted_new := Period.posted_new old;
     Period.posted_7day_reminder := Period.posted_7day_reminder old;
     Period.posted_3day_reminder := Period.posted_3day_reminder old;
     Period.posted_last_day := Period.posted_last_day old;
     Period.created_at := Period.created_at old;
     Period.updated_at := now |}.

Definition has_document_id (doc : string) (r : Period.t) : bool :=
  bool_decide (Period.document_id r = doc).

(** [SELECT id FROM comment_periods WHERE document_id = ?] then
    [fetchone()[0]]; subscripting the [None] of an empty result raises. *)
Definition select_id (doc : string) (rows : list Period.t) : result Z :=
  match List.find (has_document_id doc) rows with
  | Some r => Ok (Period.id r)
  | None => Raise TypeError
  end.

(** The table after the statement ran: the conflicting row updated in
    place, or a new row appended under the generated row id. *)
Definition upsert_rows (d : Draft.t) (now : Z) (s : store) : list Period.t :=
  if existsb (has_document_id (Draft.document_id d)) (comment_periods s)
  then (λ r, if has_document_id (Draft.document_id d) r
             then do_update d now r else r)
         <$> comment_periods s
  else comment_periods s ++ [inserted_row d (sqlite_sequence s + 1) now].

(** [upsert_comment_period].  [now] is the CURRENT_TIMESTAMP of the call.
    A draft that breaks the CHECK constraint aborts the statement with an
    IntegrityError before the commit, and the store is unchanged.
    Otherwise the statement generates a row id, and either stores a new
    row (no row has this [document_id]) or updates the conflicting row in
    place.  Every call opens a connection of its own, whose
    [last_insert_rowid] is 0 until an INSERT of this connection stores a
    row: [cursor.lastrowid] is the new id on the insert path and 0 on the
    update path, where the id is read back with a SELECT. *)
Definition upsert_comment_period (d : Draft.t) (now : Z) (s : store)
  : result Z * store :=
  if negb (check_dates (Draft.posted_date d) (Draft.comment_end_date d))
  then (Raise IntegrityError, s)
  else
    let doc := Draft.document_id d in
    let rowid := sqlite_sequence s + 1 in
    let conflict := existsb (has_document_id doc) (comment_periods s) in
    let rows' := upsert_rows d now s in
    let lastrowid := if conflict then 0 else rowid in
    let s' := {| comment_periods := rows';
                 bot_posts := bot_posts s;
                 sqlite_sequence := rowid |} in
    let period_id :=
      if 0 <? lastrowid then Ok lastrowid else select_id doc rows' in
    (period_id, s').

(** A run of ingestion calls; a call that raises is skipped by the caller
    ([scrape] counts it as an error) and leaves the store as it was. *)
Definition upsert_all (calls : list (Draft.t * Z)) (s : store) : store :=
  foldl (λ s c, (upsert_comment_period c.1 c.2 s).2) s calls.

(** [get_period_by_document_id] *)
Definition get_period_by_document_id (doc : string) (s : store)
  : option Period.t :=
  List.find (has_document_id doc) (comment_periods s).

(** The reminder column [get_closing_soon] checks for [days]. *)
Definition reminder_field (days : Z) : option flag_field :=
  if days =? 7 then Some F_posted_7day_reminder
  else if days =? 3 then Some F_posted_3day_reminder
  else if days =? 1 then Some F_posted_last_day
  else None.

(** [ORDER BY agency_id, title] compares the TEXT values bytewise. *)
Definition order_leb (a b : Period.t) : bool :=
  match String.compare (Period.agency_id a) (Period.agency_id b) with
  | Lt => true
  | Gt => false
  | Eq =>
      match String.compare (Period.title a) (Period.title b) with
      | Gt => false
      | _ => true
      end
  end.

Definition order_le (a b : Period.t) : Prop := Is_true (order_leb a b).

(** The WHERE clause of [get_closing_soon]. *)
Definition closing_on (target_date : Z) (f : flag_field) (r : Period.t) : bool :=
  (Period.comment_end_date r =? target_date) && negb (flag_value f r).

(** [get_closing_soon]; [today] is the day [datetime.now()] falls on.
    [timedelta(days=days)] accepts a magnitude of at most 999999999.
    Day numbers have no first or last day: the end of [datetime]'s own
    range, the year 9999, is not modelled. *)
Definition get_closing_soon (today days : Z) (s : store)
  : result (list Period.t) :=
  if 999999999 <? Z.abs days then Raise OverflowError
  else
    let target_date := today + days in
    match reminder_field days with
    | None => Raise ValueError
    | Some f =>
        Ok (merge_sort order_le
              (List.filter (closing_on target_date f) (comment_periods s)))
    end.

(** [field_map] of [mark_posted]. *)
Definition field_map (post_type : string) : option flag_field :=
  if String.eqb post_type "new" then Some F_posted_new
  else if String.eqb post_type "7day" then Some F_posted_7day_reminder
  else if String.eqb post_type "3day" then Some F_posted_3day_reminder
  else if String.eqb post_type "last_day" then Some F_posted_last_day
  else None.

(** [if post_uri:] holds for a string that is not empty. *)
Definition uri_given (post_uri : option string) : option string :=
  match post_uri with
  | Some EmptyString => None
  | other => other
  end.

(** [mark_posted]: one transaction that sets the flag of the row with this
    id and, when a receipt is given, appends a [bot_posts] row. *)
Definition mark_posted (period_id : Z) (post_type : string)
    (post_uri : option string) (s : store) : result unit * store :=
  match field_map post_type with
  | None => (Raise ValueError, s)
  | Some field =>
      let rows' :=
        (λ r, if Period.id r =? period_id then set_flag field r else r)
          <$> comment_periods s in
      let posts' :=
        match uri_given post_uri with
        | Some uri =>
            bot_posts s ++
            [{| comment_period_id := period_id;
                post_type := post_type;
                post_uri := uri |}]
        | None => bot_posts s
        end in
      (Ok tt, {| comment_periods := rows';
                 bot_posts := posts';
                 sqlite_sequence := sqlite_sequence s |})
  end.

(** What the database guarantees of every reachable state: [document_id]
    is UNIQUE, [id] is a primary key, and no stored id exceeds the
    AUTOINCREMENT high-water mark. *)
Record store_wf (s : store) : Prop := {
  wf_document_id_unique : NoDup (Period.document_id <$> comment_periods s);
  wf_id_unique : NoDup (Period.id <$> comment_periods s);
  wf_id_range : ∀ r, r ∈ comment_periods s → 0 < Period.id r ≤ sqlite_sequence s;
  wf_sequence : 0 ≤ sqlite_sequence s
}.

(** The operations that write the store, and a run of them. *)
Inductive store_op :=
  | Upsert (d : Draft.t) (now : Z)
  | MarkPosted (period_id : Z) (post_type : string) (post_uri : option string).

Definition apply_op (s : store) (o : store_op) : store :=
  match o with
  | Upsert d now => (upsert_comment_period d now s).2
  | MarkPosted period_id post_type post_uri =>
      (mark_posted period_id post_type post_uri s).2
  end.

Definition run_ops (ops : list store_op) (s : store) : store :=
  foldl apply_op s ops.

(** The row [upsert_comment_period] leaves under the draft's
    [document_id]. *)
Definition row_after (d : Draft.t) (now : Z) (s : store) : Period.t :=
  match List.find (has_document_id (Draft.document_id d)) (comment_periods s) with
  | Some old => do_update d now old
  | None => inserted_row d (sqlite_sequence s + 1) now
  end.


(** ** Python values and the string operations the scrapers use *)

(** A JSON number as Python holds it: a finite value (an [int] or a
    finite [float]) or one of the three non-finite floats the [json]
    module accepts. *)
Inductive number :=
  | Finite (q : Q)
  | PosInf
  | NegInf
  | NaN.

(** A Python object decoded from JSON; a [dict] is a finite map on its
    string keys. *)
Inductive value :=
  | VNone
  | VBool (b : bool)
  | VNum (n : number)
  | VStr (s : string)
  | VList (l : list value)
  | VDict (m : gmap string value).

Definition VInt (z : Z) : value := VNum (Finite (inject_Z z)).

(** Truth value of an object, as [if v:] and [not v] take it. *)
Definition truthy (v : value) : bool :=
  match v with
  | VNone => false
  | VBool b => b
  | VNum (Finite q) => negb (Qeq_bool q 0)
  | VNum _ => true
  | VStr s => negb (String.eqb s "")
  | VList l => match l with [] => false | _ => true end
  | VDict m => match map_to_list m with [] => false | _ => true end
  end.

(** [d.get(key)] on a [dict] that is known to be one. *)
Definition dict_get (d : gmap string value) (key : string) : value :=
  default VNone (d !! key).

(** Sequencing of calls that may raise. *)
Definition and_then {A B} (r : result A) (k : A → result B) : result B :=
  match r with
  | Ok a => k a
  | Raise e => Raise e
  end.

Notation "'let+' x := r 'in' k" := (and_then r (λ x, k))
  (at level 10, x name, r at level 100, k at level 200).

(** [v.get(key, dflt)]: only a [dict] has the method. *)
Definition py_get (v : value) (key : string) (dflt : value) : result value :=
  match v with
  | VDict m => Ok (default dflt (m !! key))
  | _ => Raise AttributeError
  end.

Definition is_str (v : value) : bool :=
  match v with VStr _ => true | _ => false end.

Definition str_of (v : value) : string :=
  match v with VStr s => s | _ => "" end.

Fixpoint is_substring (needle s : string) : bool :=
  String.prefix needle s
  || match s with
     | EmptyString => false
     | String _ rest => is_substring needle rest
     end.

(** [key in v] for a string [key]: membership in the keys of a [dict], in
    the elements of a [list], substring of a [str]; other objects are
    not iterable. *)
Definition py_contains (key : string) (v : value) : result bool :=
  match v with
  | VDict m => Ok (bool_decide (is_Some (m !! key)))
  | VList l =>
      Ok (existsb (λ x, match x with VStr s => String.eqb s key | _ => false end) l)
  | VStr s => Ok (is_substring key s)
  | _ => Raise TypeError
  end.

(** [v[key]] for a string [key]. *)
Definition py_getitem (v : value) (key : string) : result value :=
  match v with
  | VDict m =>
      match m !! key with
      | Some x => Ok x
      | None => Raise KeyError
      end
  | _ => Raise TypeError
  end.

Fixpoint chars (s : string) : list value :=
  match s with
  | EmptyString => []
  | String c rest => VStr (String c EmptyString) :: chars rest
  end.

(** What iterating over [v] yields: the elements of a [list], the
    characters of a [str], the keys of a [dict]; other objects are not
    iterable.  A [dict] yields its keys in the order they were inserted,
    for a decoded JSON object the order of the document; a finite map
    does not record that order, and [key_order] gives it. *)
Definition py_iter (key_order : gmap string value → list string) (v : value)
  : result (list value) :=
  match v with
  | VList l => Ok l
  | VStr s => Ok (chars s)
  | VDict m => Ok (VStr <$> key_order m)
  | _ => Raise TypeError
  end.

(** [acc.extend(v)] *)
Definition py_extend (key_order : gmap string value → list string)
    (acc : list value) (v : value) : result (list value) :=
  let+ items := py_iter key_order v in Ok (acc ++ items).

(** [n >= v] for an [int] [n]: defined against a number or a [bool]. *)
Definition py_int_ge (n : Z) (v : value) : result bool :=
  match v with
  | VNum (Finite q) => Ok (Qle_bool q (inject_Z n))
  | VNum NegInf => Ok true
  | VNum PosInf | VNum NaN => Ok false
  | VBool b => Ok ((if b then 1 else 0) <=? n)
  | _ => Raise TypeError
  end.

(** [s.rstrip(c)] for a one-character [c]. *)
Fixpoint py_rstrip (c : ascii) (s : string) : string :=
  match s with
  | EmptyString => EmptyString
  | String a rest =>
      match py_rstrip c rest with
      | EmptyString => if Ascii.eqb a c then EmptyString else String a EmptyString
      | r => String a r
      end
  end.

(** [s.split(sep)] for a separator that is not empty.  [skip] counts the
    characters of a separator found at an earlier position that are
    still to be passed over; [cur] is the piece being collected. *)
Fixpoint split_from (sep s : string) (skip : nat) (cur : string) : list string :=
  match s with
  | EmptyString => [cur]
  | String c rest =>
      match skip with
      | S k => split_from sep rest k cur
      | O =>
          if String.prefix sep s
          then cur :: split_from sep rest (String.length sep - 1) EmptyString
          else split_from sep rest O (cur ++ String c EmptyString)
      end
  end.

Definition py_split (sep s : string) : list string :=
  split_from sep s O EmptyString.

(** [sorted(set(l))] on strings: ascending code points (the byte order
    of UTF-8 text), no duplicates. *)
Fixpoint insert_sorted (x : string) (l : list string) : list string :=
  match l with
  | [] => [x]
  | y :: l' =>
      match String.compare x y with
      | Lt => x :: l
      | Eq => l
      | Gt => y :: insert_sorted x l'
      end
  end.

Definition sorted_set (l : list string) : list string :=
  foldr insert_sorted [] l.

(** The whitespace [int] skips around the literal: the six ASCII
    whitespace characters and, among the other code points below 256,
    the Unicode spaces NEL and NBSP. *)
Definition is_space (c : ascii) : bool :=
  let n := Z.of_N (N_of_ascii c) in
  ((9 <=? n) && (n <=? 13)) || (n =? 32) || (n =? 133) || (n =? 160).

Fixpoint lstrip_space (s : string) : string :=
  match s with
  | String c rest => if is_space c then lstrip_space rest else s
  | EmptyString => EmptyString
  end.

Fixpoint rstrip_space (s : string) : string :=
  match s with
  | EmptyString => EmptyString
  | String a rest =>
      match rstrip_space rest with
      | EmptyString => if is_space a then EmptyString else String a EmptyString
      | r => String a r
      end
  end.

Definition digit_of (c : ascii) : option Z :=
  let n := Z.of_N (N_of_ascii c) in
  if (48 <=? n) && (n <=? 57) then Some (n - 48) else None.

(** Decimal digits, single underscores allowed between two digits. *)
Fixpoint parse_digits (s : string) (acc : Z) (after_digit : bool) : option Z :=
  match s with
  | EmptyString => if after_digit then Some acc else None
  | String c rest =>
      match digit_of c with
      | Some d => parse_digits rest (10 * acc + d) true
      | None =>
          if Ascii.eqb c "_" && after_digit
          then parse_digits rest acc false
          else None
      end
  end.

(** [int(s)] on a string: surrounding whitespace, an optional sign, a
    decimal literal; anything else raises ValueError. *)
Definition py_int (s : string) : result Z :=
  let t := rstrip_space (lstrip_space s) in
  let parsed :=
    match t with
    | String "+" rest => parse_digits rest 0 false
    | String "-" rest => Z.opp <$> parse_digits rest 0 false
    | _ => parse_digits t 0 false
    end in
  match parsed with
  | Some n => Ok n
  | None => Raise ValueError
  end.

(** ** The network and the clock *)

(** What [fetch_page] reads of a [requests.Response]: the status, the
    [Retry-After] header when the server sent one, and what
    [response.json()] returns ([None] when the body is not JSON and the
    call raises a ValueError). *)
Record response := {
  status_code : Z;
  retry_after : option string;
  json : option value
}.

(** How one [session.get] ends: a response, or one of the exceptions of
    [requests]; [RequestException] stands for those that are neither a
    timeout nor a connection error. *)
Inductive reply :=
  | Responded (r : response)
  | Timeout
  | ConnectionError
  | RequestException.

(** A request: the URL and, for the search endpoint, the [page[number]]
    parameter (the other parameters do not change between requests). *)
Record request := {
  url : string;
  page_number : option Z
}.

Inductive event :=
  | Get (rq : request)
  | Sleep (seconds : Q).

(** The state of the process: the clock ([time.time()]), the scraper's
    [last_request_time], how many requests were sent, and what happened
    in order. *)
Record world := {
  now : Q;
  last_request_time : Q;
  sent : nat;
  trace : list event
}.

(** Computations that read and advance the world and may raise. *)
Definition M (A : Type) : Type := world → result A * world.

Definition ret {A} (a : A) : M A := λ w, (Ok a, w).

Definition bind {A B} (m : M A) (k : A → M B) : M B :=
  λ w, match m w with
       | (Ok a, w') => k a w'
       | (Raise e, w') => (Raise e, w')
       end.

Definition lift {A} (r : result A) : M A := λ w, (r, w).

Notation "'let*' x := m 'in' k" := (bind m (λ x, k))
  (at level 10, x name, m at level 100, k at level 200).
Notation "'do' m 'then' k" := (bind m (λ _, k))
  (at level 10, m at level 100, k at level 200).

(** The largest whole number of seconds [time.sleep] converts to its
    64-bit nanosecond count. *)
Definition SLEEP_MAX : Q := inject_Z 9223372036.

(** The world once the process has slept [seconds]. *)
Definition slept (seconds : Q) (w : world) : world :=
  {| now := now w + seconds;
     last_request_time := last_request_time w;
     sent := sent w;
     trace := trace w ++ [Sleep seconds] |}.

(** [time.sleep(seconds)]: a negative length is a ValueError, a length
    beyond [SLEEP_MAX] an OverflowError; otherwise the clock advances. *)
Definition time_sleep (seconds : Q) : M unit :=
  λ w,
    if negb (Qle_bool 0 seconds) then (Raise ValueError, w)
    else if negb (Qle_bool seconds SLEEP_MAX) then (Raise OverflowError, w)
    else (Ok tt, slept seconds w).

(** The world once one more request has gone out. *)
Definition requested (rq : request) (w : world) : world :=
  {| now := now w;
     last_request_time := last_request_time w;
     sent := S (sent w);
     trace := trace w ++ [Get rq] |}.

Definition ok (r : response) : bool :=
  negb ((400 <=? status_code r) && (status_code r <? 600)).

(** [int(response.headers.get('Retry-After', 60))] *)
Definition retry_after_seconds (r : response) : result Z :=
  match retry_after r with
  | None => Ok 60
  | Some s => py_int s
  end.

Section Scraper.

(** The server: the outcome of the n-th request this process sends. *)
Variable server : nat → reply.

(** [self.rate_limit] *)
Variable rate_limit : Q.

(** [self.session.get(...)]; an exception of [requests] is returned as
    the reply and handled where the source catches it. *)
Definition session_get (rq : request) : M reply :=
  λ w, (Ok (server (sent w)), requested rq w).

(** [BaseScraper._rate_limit] *)
Definition _rate_limit : M unit :=
  λ w,
    let elapsed := (now w - last_request_time w)%Q in
    let waited :=
      if negb (Qle_bool rate_limit elapsed)
      then time_sleep (rate_limit - elapsed) w
      else (Ok tt, w) in
    match waited with
    | (Ok _, w') =>
        (Ok tt, {| now := now w';
                   last_request_time := now w';
                   sent := sent w';
                   trace := trace w' |})
    | (Raise e, w') => (Raise e, w')
    end.

(** The [for attempt in range(max_retries)] loop of [fetch_page]:
    [remaining] iterations are left and the loop variable is [attempt].
    Leaving the loop returns [None]. *)
Fixpoint attempts (rq : request) (remaining : nat) (attempt : Z)
  : M (option response) :=
  match remaining with
  | O => ret None
  | S remaining' =>
      let* rp := session_get rq in
      match rp with
      | Responded r =>
          if status_code r =? 429 then
            let* seconds := lift (retry_after_seconds r) in
            do time_sleep (inject_Z seconds) then
            attempts rq remaining' (attempt + 1)
          else if (500 <=? status_code r) && (status_code r <? 600) then
            do time_sleep (inject_Z (2 ^ attempt)) then
            attempts rq remaining' (attempt + 1)
          else if (400 <=? status_code r) && (status_code r <? 500) then
            ret None
          else
            ret (Some r)
      | Timeout | ConnectionError =>
          do time_sleep (inject_Z (2 ^ attempt)) then
          attempts rq remaining' (attempt + 1)
      | RequestException => ret None
      end
  end.

(** [BaseScraper.fetch_page] *)
Definition fetch_page (rq : request) (max_retries : Z) : M (option response) :=
  do _rate_limit then
  attempts rq (Z.to_nat max_retries) 0.

End Scraper.

(** The replies [fetch_page] retries with exponential backoff: a 5xx
    response, a timeout, a connection error. *)
Definition retryable (rp : reply) : bool :=
  match rp with
  | Responded r => (500 <=? status_code r) && (status_code r <? 600)
  | Timeout | ConnectionError => true
  | RequestException => false
  end.

(** The world after [n] attempts in a row that each sent the request and
    then backed off, the first of them being attempt number [attempt]. *)
Fixpoint backed_off (rq : request) (n : nat) (attempt : Z) (w : world) : world :=
  match n with
  | O => w
  | S n' =>
      backed_off rq n' (attempt + 1)
        (slept (inject_Z (2 ^ attempt)) (requested rq w))
  end.

(** What those attempts add to the trace. *)
Fixpoint backoff_trace (rq : request) (n : nat) (attempt : Z) : list event :=
  match n with
  | O => []
  | S n' =>
      Get rq :: Sleep (inject_Z (2 ^ attempt)) :: backoff_trace rq n' (attempt + 1)
  end.

(** ** Pagination ([RegulationsGovScraper.get_new_comment_periods]) *)

Definition REGULATIONS_BASE_URL : string := "https://api.regulations.gov/v4".

Definition documents_request (page : Z) : request :=
  {| url := REGULATIONS_BASE_URL ++ "/documents"; page_number := Some page |}.

(** The outcome of the [while True] loop run with a bound on its
    iterations: the value it returned, or the bound was reached first. *)
Inductive loop (A : Type) :=
  | Finished (a : A)
  | OutOfFuel.
Arguments Finished {A} a.
Arguments OutOfFuel {A}.

(** The [while True] loop of [get_new_comment_periods]; [page] is
    [params['page[number]']], the one parameter that changes between
    iterations (the date filters, the sort order and the page size are
    fixed before the loop).  Every [break] returns [all_documents]; an
    exception leaves the loop and the function, and [all_documents] with
    it. *)
Fixpoint fetch_pages (key_order : gmap string value → list string)
    (server : nat → reply) (fuel : nat) (page : Z)
    (all_documents : list value) : M (loop (list value)) :=
  match fuel with
  | O => ret OutOfFuel
  | S fuel' =>
      let* response := fetch_page server 1 (documents_request page) 3 in
      match response with
      | None => ret (Finished all_documents)
      | Some r =>
          if negb (ok r) then ret (Finished all_documents)
          else
            match json r with
            | None => ret (Finished all_documents)
            | Some data =>
                let* has_data := lift (py_contains "data" data) in
                if negb has_data then ret (Finished all_documents)
                else
                  let* documents := lift (py_getitem data "data") in
                  let* all_documents :=
                    lift (py_extend key_order all_documents documents) in
                  let* meta := lift (py_get data "meta" (VDict ∅)) in
                  let* total_pages := lift (py_get meta "totalPages" (VInt 1)) in
                  let* last := lift (py_int_ge page total_pages) in
                  if last then ret (Finished all_documents)
                  else fetch_pages key_order server fuel' (page + 1) all_documents
            end
      end
  end.

Definition get_new_comment_periods (key_order : gmap string value → list string)
    (server : nat → reply) (fuel : nat) : M (loop (list value)) :=
  fetch_pages key_order server fuel 1 [].

(** Page [page] was fetched and read, yielded [items], and announced
    further pages: the loop goes round again from [w']. *)
Definition page_fetched (key_order : gmap string value → list string)
    (server : nat → reply) (page : Z) (w : world)
    (items : list value) (w' : world) : Prop :=
  ∃ r data documents meta total_pages,
    fetch_page server 1 (documents_request page) 3 w = (Ok (Some r), w')
    ∧ ok r = true
    ∧ json r = Some data
    ∧ py_contains "data" data = Ok true
    ∧ py_getitem data "data" = Ok documents
    ∧ py_iter key_order documents = Ok items
    ∧ py_get data "meta" (VDict ∅) = Ok meta
    ∧ py_get meta "totalPages" (VInt 1) = Ok total_pages
    ∧ py_int_ge page total_pages = Ok false.

(** Pages [page], [page + 1], ... were fetched one after the other from
    [w], each announcing further pages; [pages] are their items. *)
Inductive pages_fetched (key_order : gmap string value → list string)
    (server : nat → reply)
  : Z → world → list (list value) → Z → world → Prop :=
  | pages_fetched_nil page w : pages_fetched key_order server page w [] page w
  | pages_fetched_cons page w items w1 rest page' w' :
      page_fetched key_order server page w items w1 →
      pages_fetched key_order server (page + 1) w1 rest page' w' →
      pages_fetched key_order server page w (items :: rest) page' w'.

(** Fetching or parsing page [page] fails: [fetch_page] gives up and
    returns [None], or the body is not JSON, or the JSON carries no
    ['data']. *)
Definition page_failed (server : nat → reply) (page : Z) (w w' : world) : Prop :=
  fetch_page server 1 (documents_request page) 3 w = (Ok None, w')
  ∨ ∃ r, fetch_page server 1 (documents_request page) 3 w = (Ok (Some r), w')
         ∧ ok r = true
         ∧ (json r = None
            ∨ ∃ data, json r = Some data ∧ py_contains "data" data = Ok false).

(** What the loop computes from the JSON of a page that has ['data'],
    after the items are appended: whether the page is the last one. *)
Definition is_last_page (page : Z) (data : value) : result bool :=
  let+ meta := py_get data "meta" (VDict ∅) in
  let+ total_pages := py_get meta "totalPages" (VInt 1) in
  py_int_ge page total_pages.

(** Fetching or reading page [page] raises [e]: in [fetch_page], in the
    test for ['data'], in [data['data']], in [extend], or on the way to
    [current_page >= total_pages]. *)
Definition page_raises (key_order : gmap string value → list string)
    (server : nat → reply) (page : Z) (w : world)
    (e : exn) (w' : world) : Prop :=
  fetch_page server 1 (documents_request page) 3 w = (Raise e, w')
  ∨ ∃ r data,
      fetch_page server 1 (documents_request page) 3 w = (Ok (Some r), w')
      ∧ ok r = true
      ∧ json r = Some data
      ∧ (py_contains "data" data = Raise e
         ∨ (py_contains "data" data = Ok true
            ∧ (let+ documents := py_getitem data "data" in
               let+ items := py_iter key_order documents in
               is_last_page page data) = Raise e)).

(** ** Enrichment ([FederalRegisterScraper]) *)

Definition FEDERAL_REGISTER_BASE_URL : string :=
  "https://www.federalregister.gov/api/v1".

(** The document number [enrich_period] extracts from
    [period['federal_register_url']]: the text after the last slash, once
    trailing slashes are removed.  [None] when the field is missing or
    falsy. *)
Definition fr_doc_num (period : gmap string value) : result (option string) :=
  let v := dict_get period "federal_register_url" in
  if truthy v then
    match v with
    | VStr url => Ok (Some (List.last (py_split "/" (py_rstrip "/" url)) EmptyString))
    | _ => Raise AttributeError
    end
  else Ok None.

(** [FederalRegisterScraper.get_document] *)
Definition get_document (server : nat → reply) (num : string) : M (option value) :=
  let rq := {| url := FEDERAL_REGISTER_BASE_URL ++ "/documents/" ++ num ++ ".json";
               page_number := None |} in
  let* response := fetch_page server (1 # 2) rq 3 in
  match response with
  | None => ret None
  | Some r => if negb (ok r) then ret None else ret (json r)
  end.

(** [period.get('keywords', '').split(', ') if period.get('keywords') else []] *)
Definition existing_topics (period : gmap string value) : result (list value) :=
  let v := dict_get period "keywords" in
  if truthy v then
    match v with
    | VStr s => Ok (VStr <$> py_split ", " s)
    | _ => Raise AttributeError
    end
  else Ok [].

(** [', '.join(sorted(set(existing_topics + fr_topics)))]: the sum needs a
    [list] on the right; a set of strings sorts and joins, and any other
    element raises a TypeError on the way (unhashable in [set], not
    comparable in [sorted], or not a [str] in [join]). *)
Definition join_topics (existing : list value) (fr_topics : value) : result string :=
  match fr_topics with
  | VList l =>
      let all_topics := existing ++ l in
      if forallb is_str all_topics
      then Ok (String.concat ", " (sorted_set (str_of <$> all_topics)))
      else Raise TypeError
  | _ => Raise TypeError
  end.

(** The part of [enrich_period] that runs once the Federal Register
    document is there: the copy of [period] with the three fields it may
    set. *)
Definition enhance (period : gmap string value) (fr_doc : value)
  : result (gmap string value) :=
  let enhanced := period in
  let+ fr_abstract := py_get fr_doc "abstract" VNone in
  let enhanced :=
    if truthy fr_abstract && negb (truthy (dict_get period "abstract"))
    then <["abstract" := fr_abstract]> enhanced
    else enhanced in
  let+ fr_topics := py_get fr_doc "topics" VNone in
  let+ enhanced :=
    if truthy fr_topics then
      let+ existing := existing_topics period in
      let+ keywords := join_topics existing fr_topics in
      Ok (<["keywords" := VStr keywords]> enhanced)
    else Ok enhanced in
  let+ action := py_get fr_doc "action" VNone in
  let enhanced :=
    if truthy action && negb (truthy (dict_get period "document_type"))
    then <["document_type" := action]> enhanced
    else enhanced in
  Ok enhanced.

(** [FederalRegisterScraper.enrich_period] *)
Definition enrich_period (server : nat → reply) (period : gmap string value)
  : M (gmap string value) :=
  let* num := lift (fr_doc_num period) in
  match num with
  | None => ret period
  | Some num =>
      if String.eqb num "" then ret period
      else
        let* fr_doc := get_document server num in
        match fr_doc with
        | None => ret period
        | Some fr_doc =>
            if negb (truthy fr_doc) then ret period
            else lift (enhance period fr_doc)
        end
  end.

(** The cases in which the topics of the Federal Register document merge
    into [keywords] without an exception: there are no topics, or they
    are a list of strings and the period's keywords are a string or
    falsy. *)
Definition topics_mergeable (period fr_doc : gmap string value) : bool :=
  let fr_topics := dict_get fr_doc "topics" in
  let keywords := dict_get period "keywords" in
  negb (truthy fr_topics)
  || (match fr_topics with VList l => forallb is_str l | _ => false end
      && (negb (truthy keywords) || is_str keywords)).

(** ** Sample data

    Drafts after the calls of [src/test_db.py] (day 0 is today, the
    clock counts the calls) and small servers for the scrapers. *)

Definition epa_draft : Draft.t :=
  {| Draft.document_id := "EPA-HQ-OW-2024-0123";
     Draft.docket_id := "EPA-HQ-OW-2024-0123";
     Draft.title := "Clean Water Standards - PFAS Regulations";
     Draft.agency_id := "EPA";
     Draft.agency_name := "Environmental Protection Agency";
     Draft.posted_date := -1;
     Draft.comment_end_date := 30;
     Draft.regulations_url :=
       "https://www.regulations.gov/commenton/EPA-HQ-OW-2024-0123";
     Draft.kwargs :=
       {[ "abstract" := Some "Proposed standards for PFAS chemicals"%string;
          "topics" := Some "[environment, climate]"%string;
          "document_type" := Some "Proposed Rule"%string ]} |}.

Definition epa_update : Draft.t :=
  {| Draft.document_id := "EPA-HQ-OW-2024-0123";
     Draft.docket_id := "EPA-HQ-OW-2024-0123";
     Draft.title := "Clean Water Standards - PFAS Regulations (Updated)";
     Draft.agency_id := "EPA";
     Draft.agency_name := "Environmental Protection Agency";
     Draft.posted_date := -1;
     Draft.comment_end_date := 30;
     Draft.regulations_url :=
       "https://www.regulations.gov/commenton/EPA-HQ-OW-2024-0123";
     Draft.kwargs :=
       {[ "abstract" := Some "Proposed standards - UPDATED"%string;
          "summary" := None;
          "posted_new" := Some "0"%string ]} |}.

Definition fda_draft : Draft.t :=
  {| Draft.document_id := "FDA-2024-N-5678";
     Draft.docket_id := "FDA-2024-N-5678";
     Draft.title := "Food Labeling Requirements";
     Draft.agency_id := "FDA";
     Draft.agency_name := "Food and Drug Administration";
     Draft.posted_date := -20;
     Draft.comment_end_date := 7;
     Draft.regulations_url :=
       "https://www.regulations.gov/commenton/FDA-2024-N-5678";
     Draft.kwargs := {[ "topics" := Some "[healthcare, food]"%string ]} |}.

(** The store after the two inserts of the test and the post of the
    first period. *)
Definition ingested_store : store :=
  upsert_all [(epa_draft, 1); (fda_draft, 2)] empty_store.

Definition posted_store : store :=
  (mark_posted 1 "new" (Some "at://did:plc:example/app.bsky.feed.post/abc123"%string)
     ingested_store).2.

Definition epa_row : Period.t := set_flag F_posted_new (inserted_row epa_draft 1 1).

Definition fda_row : Period.t := inserted_row fda_draft 2 2.

Definition start : world :=
  {| now := 1000; last_request_time := 0; sent := 0; trace := [] |}.

Definition a_request : request := documents_request 1.

Definition too_many_requests (header : option string) : response :=
  {| status_code := 429; retry_after := header; json := None |}.

Definition server_error : response :=
  {| status_code := 500; retry_after := None; json := None |}.

Definition not_found : response :=
  {| status_code := 404; retry_after := None; json := None |}.

Definition success (body : value) : response :=
  {| status_code := 200; retry_after := None; json := Some body |}.

(** One 429 without a [Retry-After], then success. *)
Definition rate_limited_once (n : nat) : reply :=
  match n with
  | O => Responded (too_many_requests None)
  | _ => Responded (success (VDict ∅))
  end.

(** Three 429 without a [Retry-After], then success. *)
Definition rate_limited_thrice (n : nat) : reply :=
  match n with
  | 0%nat | 1%nat | 2%nat => Responded (too_many_requests None)
  | _ => Responded (success (VDict ∅))
  end.

(** A 429 whose [Retry-After] is an HTTP date, as RFC 9110 allows. *)
Definition retry_after_date (n : nat) : reply :=
  Responded (too_many_requests (Some "Wed, 21 Oct 2015 07:28:00 GMT"%string)).

(** A server that is down, and one that fails once before refusing. *)
Definition always_down (n : nat) : reply := Responded server_error.

Definition down_then_not_found (n : nat) : reply :=
  match n with
  | O => Timeout
  | _ => Responded not_found
  end.

Definition document (name : string) : value := VDict {[ "id" := VStr name ]}.

Definition search_page (documents : list value) (total_pages : Z) : value :=
  VDict {[ "data" := VList documents;
           "meta" := VDict {[ "totalPages" := VInt total_pages ]} ]}.

(** Page 1 of 3 arrives; page 2 meets a server error on every attempt. *)
Definition second_page_down (n : nat) : reply :=
  match n with
  | O => Responded (success (search_page [document "A"; document "B"] 3))
  | _ => Responded server_error
  end.

(** The key order the samples give a [dict]; none of them iterates over
    one. *)
Definition document_order (m : gmap string value) : list string :=
  (map_to_list m).*1.

(** Page 1 of 3 arrives; the body of page 2 is the JSON [null]. *)
Definition second_page_null (n : nat) : reply :=
  match n with
  | O => Responded (success (search_page [document "A"; document "B"] 3))
  | _ => Responded (success VNone)
  end.

(** Page 1 of 3 arrives; page 2 has an item and a ['meta'] that is
    [null]. *)
Definition second_page_meta_null (n : nat) : reply :=
  match n with
  | O => Responded (success (search_page [document "A"; document "B"] 3))
  | _ => Responded (success (VDict {[ "data" := VList [document "C"];
                                      "meta" := VNone ]}))
  end.

(** Page 1 of 3 arrives; page 2 is answered with a 429 whose
    [Retry-After] is an HTTP date. *)
Definition second_page_retry_after_date (n : nat) : reply :=
  match n with
  | O => Responded (success (search_page [document "A"; document "B"] 3))
  | _ => Responded (too_many_requests (Some "Wed, 21 Oct 2015 07:28:00 GMT"%string))
  end.

(** The spec's end-to-end scenario: an empty primary abstract and a
    Federal Register document with abstract ["X"]. *)
Definition primary_period : gmap string value :=
  {[ "document_id" := VStr "EPA-HQ-OW-2024-0123";
     "title" := VStr "Clean Water Standards";
     "abstract" := VStr "";
     "keywords" := VStr "RIN: 2040-AG18";
     "federal_register_url" :=
       VStr "https://www.federalregister.gov/documents/2026-00783" ]}.

Definition fr_document : gmap string value :=
  {[ "abstract" := VStr "X";
     "topics" := VList [VStr "Water supply"; VStr "Chemicals"];
     "action" := VStr "Proposed rule." ]}.

Definition federal_register (n : nat) : reply :=
  Responded (success (VDict fr_document)).

(** What [enrich_period] makes of [primary_period] against that server,
    and the world it leaves. *)
Definition enriched_period : gmap string value :=
  <["document_type" := VStr "Proposed rule."]>
    (<["keywords" := VStr "Chemicals, RIN: 2040-AG18, Water supply"]>
       (<["abstract" := VStr "X"]> primary_period)).

Definition fetched_once : world :=
  {| now := 1000;
     last_request_time := 1000;
     sent := 1;
     trace :=
       [Get {| url := "https://www.federalregister.gov/api/v1/documents/2026-00783.json";
               page_number := None |}] |}.

(** ** The other queries of the store ([src/database/db.py]) *)

(** [if limit: sql += f" LIMIT {limit}"]: no clause for [None] and for 0.
    SQLite reads a negative LIMIT as no limit, and a literal beyond 64
    bits, not an integer to it, as a datatype mismatch, which [sqlite3]
    raises as an IntegrityError. *)
Definition sql_limit {A} (limit : option Z) (rows : list A) : result (list A) :=
  match limit with
  | None => Ok rows
  | Some n =>
      if n =? 0 then Ok rows
      else if (n <? - 2 ^ 63) || (2 ^ 63 - 1 <? n) then Raise IntegrityError
      else if n <? 0 then Ok rows
      else Ok (take (Z.to_nat n) rows)
  end.

(** [datetime] covers the days 0001-01-01 to 9999-12-31, which
    [date.toordinal()] numbers 1 to 3652059; [day_zero] is the ordinal of
    the day numbered 0.  A sum or difference outside that range is an
    OverflowError. *)
Definition MAXORDINAL : Z := 3652059.

Definition datetime_in_range (day_zero day : Z) : bool :=
  (1 <=? day_zero + day) && (day_zero + day <=? MAXORDINAL).

(** [ORDER BY posted_date DESC] and [ORDER BY comment_end_date ASC]. *)
Definition posted_desc (a b : Period.t) : Prop :=
  Is_true (Period.posted_date b <=? Period.posted_date a).

Definition end_asc (a b : Period.t) : Prop :=
  Is_true (Period.comment_end_date a <=? Period.comment_end_date b).

(** The counts of [get_stats]. *)
Record stats := {
  total_periods : nat;
  open_periods : nat;
  posted_periods : nat;
  total_posts : nat
}.

Module Db.

(** The WHERE clause of [get_new_comment_periods]. *)
Definition new_unposted (cutoff_date utc_today : Z) (r : Period.t) : bool :=
  (cutoff_date <=? Period.posted_date r)
  && negb (Period.posted_new r)
  && (utc_today <=? Period.comment_end_date r).

(** [get_new_comment_periods] of [db.py].  [today] is the day of
    [datetime.now()], from which the cutoff is counted; [utc_today] is
    SQLite's [date('now')].  [timedelta(days=days)] accepts a magnitude
    of at most 999999999, and the cutoff has to be a day of
    [datetime]. *)
Definition get_new_comment_periods (day_zero today utc_today days : Z)
    (limit : option Z) (s : store) : result (list Period.t) :=
  if (999999999 <? Z.abs days) || negb (datetime_in_range day_zero (today - days))
  then Raise OverflowError
  else
    let cutoff_date := today - days in
    sql_limit limit
      (merge_sort posted_desc
         (List.filter (new_unposted cutoff_date utc_today)
                      (comment_periods s))).

(** The WHERE clause of [get_all_open_periods] and of the open count. *)
Definition still_open (utc_today : Z) (r : Period.t) : bool :=
  utc_today <=? Period.comment_end_date r.

(** [get_all_open_periods] *)
Definition get_all_open_periods (utc_today : Z) (s : store) : list Period.t :=
  merge_sort end_asc (List.filter (still_open utc_today) (comment_periods s)).

(** [get_stats] *)
Definition get_stats (utc_today : Z) (s : store) : stats :=
  {| total_periods := length (comment_periods s);
     open_periods :=
       length (List.filter (still_open utc_today) (comment_periods s));
     posted_periods := length (List.filter Period.posted_new (comment_periods s));
     total_posts := length (bot_posts s) |}.

End Db.

(** The document ids of the calls of a run that the CHECK constraint
    lets through. *)
Definition accepted_documents (calls : list (Draft.t * Z)) : list string :=
  (λ c : Draft.t * Z, Draft.document_id c.1)
    <$> List.filter
          (λ c : Draft.t * Z,
             check_dates (Draft.posted_date c.1) (Draft.comment_end_date c.1))
          calls.

(** The CHECK constraint as an invariant of the table. *)
Definition dates_checked (s : store) : Prop :=
  ∀ r, r ∈ comment_periods s →
       Period.posted_date r ≤ Period.comment_end_date r.

(** The flag [f] of the period [pid] is set in [s], and [pid] is an id the
    store has already given out. *)
Definition posted_in (pid : Z) (f : flag_field) (s : store) : Prop :=
  store_wf s
  ∧ pid ≤ sqlite_sequence s
  ∧ ∀ r, r ∈ comment_periods s → Period.id r = pid → flag_value f r = true.

(** ** More sample data *)

(** A timeout, then success. *)
Definition second_try (n : nat) : reply :=
  match n with
  | O => Timeout
  | _ => Responded (success (VDict ∅))
  end.

(** A scraper asked again a quarter of a second after its last request. *)
Definition hurried : world :=
  {| now := 1000 + (1 # 4);
     last_request_time := 1000;
     sent := 1;
     trace := [] |}.

(** ** More on pagination *)

(** Page [page] was fetched and read, yielded [items], and is the last
    one: [current_page >= total_pages]. *)
Definition page_last (key_order : gmap string value → list string)
    (server : nat → reply) (page : Z) (w : world)
    (items : list value) (w' : world) : Prop :=
  ∃ r data documents,
    fetch_page server 1 (documents_request page) 3 w = (Ok (Some r), w')
    ∧ ok r = true
    ∧ json r = Some data
    ∧ py_contains "data" data = Ok true
    ∧ py_getitem data "data" = Ok documents
    ∧ py_iter key_order documents = Ok items
    ∧ is_last_page page data = Ok true.

(** Every answer of the server is a page that can be read and reports a
    number of pages no page number reaches ([Infinity] or [NaN], which
    Python's [json] accepts). *)
Definition never_last (key_order : gmap string value → list string)
    (server : nat → reply) : Prop :=
  ∀ n, ∃ r data documents items total_pages,
    server n = Responded r
    ∧ (status_code r < 400 ∨ 600 ≤ status_code r)
    ∧ json r = Some data
    ∧ py_contains "data" data = Ok true
    ∧ py_getitem data "data" = Ok documents
    ∧ py_iter key_order documents = Ok items
    ∧ (let+ meta := py_get data "meta" (VDict ∅) in
       py_get meta "totalPages" (VInt 1)) = Ok total_pages
    ∧ ∀ page, py_int_ge page total_pages = Ok false.

(** No answer of the server reports more than [bound] pages. *)
Definition pages_bounded (server : nat → reply) (bound : Z) : Prop :=
  ∀ n r data total_pages,
    server n = Responded r → json r = Some data →
    (let+ meta := py_get data "meta" (VDict ∅) in
     py_get meta "totalPages" (VInt 1)) = Ok total_pages →
    py_int_ge bound total_pages = Ok true.

(** A search that always finds one more page. *)
Definition endless (n : nat) : reply :=
  Responded (success (VDict {[ "data" := VList [document "A"];
                               "meta" := VDict {[ "totalPages" := VNum PosInf ]} ]})).

(** Two pages, the second without ['meta']. *)
Definition two_pages (n : nat) : reply :=
  match n with
  | O => Responded (success (search_page [document "A"; document "B"] 2))
  | _ => Responded (success (VDict {[ "data" := VList [document "C"] ]}))
  end.

(** ** More on enrichment *)

Fixpoint has_char (c : ascii) (s : string) : bool :=
  match s with
  | EmptyString => false
  | String a rest => Ascii.eqb a c || has_char c rest
  end.

(** [n] slashes. *)
Fixpoint slashes (n : nat) : string :=
  match n with
  | O => EmptyString
  | S n' => String "/" (slashes n')
  end.

(** [enrich_with_federal_register]: the period is enriched by a
    [FederalRegisterScraper] made for this one call, whose
    [last_request_time] starts at 0; the caller's scraper keeps its
    own. *)
Definition enrich_with_federal_register (server : nat → reply)
    (period : gmap string value) : M (gmap string value) :=
  λ w,
    let fresh := {| now := now w;
                    last_request_time := 0;
                    sent := sent w;
                    trace := trace w |} in
    match enrich_period server period fresh with
    | (res, w') =>
        (res, {| now := now w';
                 last_request_time := last_request_time w;
                 sent := sent w';
                 trace := trace w' |})
    end.

(** The request [get_document] sends for a document number. *)
Definition document_request (num : string) : request :=
  {| url := FEDERAL_REGISTER_BASE_URL ++ "/documents/" ++ num ++ ".json";
     page_number := None |}.

(** Strict order of [sorted] on strings. *)
Definition str_lt (a b : string) : Prop := String.compare a b = Lt.

(** A Federal Register that answers with a JSON array. *)
Definition array_reply (n : nat) : reply :=
  Responded (success (VList [VStr "2026-00783"])).

(** A world in which a request has just gone out. *)
Definition busy : world :=
  {| now := 1000; last_request_time := 1000; sent := 0; trace := [] |}.

(** * Properties *)

(** ** The store *)

Lemma do_update_id d now r : Period.id (do_update d now r) = Period.id r.
Proof. reflexivity. Qed.

Lemma do_update_flags d now r f : flag_value f (do_update d now r) = flag_value f r.
Proof. by destruct f. Qed.

Lemma inserted_row_flags d rowid now f : flag_value f (inserted_row d rowid now) = false.
Proof. by destruct f. Qed.

Lemma set_flag_value f g r :
  flag_value g (set_flag f r) = flag_value g r || flag_field_eqb f g.
Proof. destruct f, g; simpl; by rewrite ?orb_true_r, ?orb_false_r. Qed.

Lemma has_document_id_true doc r :
  has_document_id doc r = true ↔ Period.document_id r = doc.
Proof. unfold has_document_id. by rewrite bool_decide_eq_true. Qed.

Lemma existsb_has_document_id doc rows :
  existsb (has_document_id doc) rows = true ↔ doc ∈ Period.document_id <$> rows.
Proof.
  rewrite existsb_exists, list_elem_of_fmap. split.
  - intros (r & Hin & Hr). exists r. apply has_document_id_true in Hr.
    by rewrite <- list_elem_of_In in Hin.
  - intros (r & -> & Hin). exists r. rewrite <- list_elem_of_In.
    by rewrite has_document_id_true.
Qed.

Lemma upsert_rows_spec d now s :
  comment_periods (upsert_comment_period d now s).2 =
    if check_dates (Draft.posted_date d) (Draft.comment_end_date d)
    then upsert_rows d now s else comment_periods s.
Proof.
  unfold upsert_comment_period.
  by destruct (check_dates _ _).
Qed.

Lemma upsert_keeps_row d now s r :
  r ∈ comment_periods s →
  ∃ r', r' ∈ comment_periods (upsert_comment_period d now s).2
        ∧ Period.id r' = Period.id r
        ∧ Period.document_id r' = Period.document_id r
        ∧ ∀ f, flag_value f r' = flag_value f r.
Proof.
  intros Hin. rewrite upsert_rows_spec.
  destruct (check_dates _ _); [|by exists r].
  unfold upsert_rows. destruct (existsb _ _).
  - exists (if has_document_id (Draft.document_id d) r then do_update d now r else r).
    split.
    + apply list_elem_of_fmap. by exists r.
    + destruct (has_document_id _ r); [|done].
      repeat split; auto using do_update_flags.
  - exists r. split; [|done]. apply elem_of_app. by left.
Qed.

Lemma upsert_new_rows d now s r' :
  r' ∈ comment_periods (upsert_comment_period d now s).2 →
  (∃ r, r ∈ comment_periods s ∧ Period.id r = Period.id r'
        ∧ ∀ f, flag_value f r' = flag_value f r)
  ∨ (∀ f, flag_value f r' = false).
Proof.
  rewrite upsert_rows_spec.
  destruct (check_dates _ _); [|intros; left; by exists r'].
  unfold upsert_rows. destruct (existsb _ _).
  - intros (r & -> & Hin)%list_elem_of_fmap. left. exists r. split; [done|].
    destruct (has_document_id _ r); [|done].
    split; auto using do_update_flags.
  - intros [Hin | ->%list_elem_of_singleton]%elem_of_app.
    + left. by exists r'.
    + right. apply inserted_row_flags.
Qed.

Lemma mark_posted_rows pid pt uri s f :
  field_map pt = Some f →
  ∃ s', mark_posted pid pt uri s = (Ok tt, s')
        ∧ comment_periods s' =
            (λ r, if Period.id r =? pid then set_flag f r else r) <$> comment_periods s.
Proof. intros Hf. unfold mark_posted. rewrite Hf. eauto. Qed.

Lemma mark_posted_invalid pid pt uri s :
  field_map pt = None → mark_posted pid pt uri s = (Raise ValueError, s).
Proof. intros Hf. unfold mark_posted. by rewrite Hf. Qed.

Lemma mark_posted_keeps_row pid pt uri s r f :
  r ∈ comment_periods s → flag_value f r = true →
  ∃ r', r' ∈ comment_periods (mark_posted pid pt uri s).2
        ∧ Period.id r' = Period.id r ∧ flag_value f r' = true.
Proof.
  intros Hin Hf. unfold mark_posted.
  destruct (field_map pt) as [g|]; simpl; [|by exists r].
  exists (if Period.id r =? pid then set_flag g r else r). split.
  - apply list_elem_of_fmap. by exists r.
  - destruct (Period.id r =? pid); [|done].
    split; [done|]. by rewrite set_flag_value, Hf.
Qed.

Lemma run_ops_keeps_flag ops : ∀ s r f,
  r ∈ comment_periods s → flag_value f r = true →
  ∃ r', r' ∈ comment_periods (run_ops ops s)
        ∧ Period.id r' = Period.id r ∧ flag_value f r' = true.
Proof.
  induction ops as [|o ops IH]; intros s r f Hin Hf; [by exists r|].
  assert (∃ r1, r1 ∈ comment_periods (apply_op s o)
                ∧ Period.id r1 = Period.id r ∧ flag_value f r1 = true)
    as (r1 & Hin1 & Hid1 & Hf1).
  { destruct o as [d now | pid pt uri]; simpl.
    - destruct (upsert_keeps_row d now s r Hin) as (r1 & ? & ? & ? & Hfl).
      exists r1. repeat split; [done..|]. by rewrite Hfl.
    - by apply mark_posted_keeps_row. }
  destruct (IH (apply_op s o) r1 f Hin1 Hf1) as (r' & ? & ? & ?).
  exists r'. repeat split; [done| congruence | done].
Qed.

Lemma upsert_all_keeps_flags calls : ∀ s r,
  r ∈ comment_periods s →
  ∃ r', r' ∈ comment_periods (upsert_all calls s)
        ∧ Period.id r' = Period.id r
        ∧ Period.document_id r' = Period.document_id r
        ∧ ∀ f, flag_value f r' = flag_value f r.
Proof.
  induction calls as [|c calls IH]; intros s r Hin; [by exists r|].
  destruct (upsert_keeps_row c.1 c.2 s r Hin) as (r1 & Hin1 & Hid & Hdoc & Hfl).
  destruct (IH _ r1 Hin1) as (r' & ? & ? & ? & Hfl').
  exists r'. repeat split; [done | congruence | congruence |].
  intros f. by rewrite Hfl', Hfl.
Qed.

(** C1: the four flags are monotonic.  A run of upserts leaves every
    flag of every stored row as it was; in any run of upserts and
    [mark_posted] calls a flag that is true stays true; an upsert stores
    no row with a flag set unless the row had it before; [mark_posted]
    sets the one flag its post type maps to, on the row with the given
    id, to true and changes no other flag; an unknown post type raises
    and leaves the store alone. *)
Theorem flags_monotonic :
  (∀ calls s r, r ∈ comment_periods s →
     ∃ r', r' ∈ comment_periods (upsert_all calls s)
           ∧ Period.id r' = Period.id r
           ∧ Period.document_id r' = Period.document_id r
           ∧ ∀ f, flag_value f r' = flag_value f r)
  ∧ (∀ ops s r f, r ∈ comment_periods s → flag_value f r = true →
     ∃ r', r' ∈ comment_periods (run_ops ops s)
           ∧ Period.id r' = Period.id r ∧ flag_value f r' = true)
  ∧ (∀ d now s r', r' ∈ comment_periods (upsert_comment_period d now s).2 →
     (∃ r, r ∈ comment_periods s ∧ Period.id r = Period.id r'
           ∧ ∀ f, flag_value f r' = flag_value f r)
     ∨ (∀ f, flag_value f r' = false))
  ∧ (∀ pid pt uri s f, field_map pt = Some f →
     ∃ s', mark_posted pid pt uri s = (Ok tt, s')
           ∧ comment_periods s' =
               (λ r, if Period.id r =? pid then set_flag f r else r)
                 <$> comment_periods s)
  ∧ (∀ f g r, flag_value g (set_flag f r) = flag_value g r || flag_field_eqb f g)
  ∧ (∀ pid pt uri s, field_map pt = None →
     mark_posted pid pt uri s = (Raise ValueError, s))
  ∧ field_map "new" = Some F_posted_new
  ∧ field_map "7day" = Some F_posted_7day_reminder
  ∧ field_map "3day" = Some F_posted_3day_reminder
  ∧ field_map "last_day" = Some F_posted_last_day.
Proof.
  repeat split.
  - intros. by apply upsert_all_keeps_flags.
  - intros. by apply run_ops_keeps_flag.
  - apply upsert_new_rows.
  - apply mark_posted_rows.
  - apply set_flag_value.
  - apply mark_posted_invalid.
Qed.

Lemma flags_monotonic_witness :
  epa_row ∈ comment_periods posted_store
  ∧ flag_value F_posted_new epa_row = true
  ∧ ∃ r', r' ∈ comment_periods
                 (run_ops [Upsert epa_update 3; MarkPosted 2 "7day" None;
                           Upsert fda_draft 4] posted_store)
          ∧ Period.id r' = 1 ∧ flag_value F_posted_new r' = true.
Proof.
  assert (epa_row ∈ comment_periods posted_store) as Hin by (vm_compute; left).
  split; [exact Hin|]. split; [reflexivity|].
  exact (proj1 (proj2 flags_monotonic) _ posted_store epa_row F_posted_new
           Hin eq_refl).
Defined.

Lemma find_none_existsb {A} (p : A → bool) l :
  List.find p l = None ↔ existsb p l = false.
Proof.
  induction l as [|x l IH]; simpl; [done|].
  destruct (p x); simpl; [split; discriminate | done].
Qed.


Lemma find_app_none {A} (p : A → bool) l x :
  List.find p l = None → p x = true → List.find p (l ++ [x]) = Some x.
Proof.
  induction l as [|y l IH]; simpl; intros Hn Hx; [by rewrite Hx|].
  destruct (p y); [done | auto].
Qed.

Lemma find_fmap_update doc (g : Period.t → Period.t) rows :
  (∀ r, Period.document_id (g r) = Period.document_id r) →
  List.find (has_document_id doc)
    ((λ r, if has_document_id doc r then g r else r) <$> rows)
  = g <$> List.find (has_document_id doc) rows.
Proof.
  intros Hg. induction rows as [|r rows IH]; simpl; [done|].
  destruct (has_document_id doc r) eqn:E.
  - assert (has_document_id doc (g r) = true) as ->; [|done].
    apply has_document_id_true. rewrite Hg. by apply has_document_id_true.
  - by rewrite E.
Qed.

Lemma find_upsert_rows d now s :
  List.find (has_document_id (Draft.document_id d)) (upsert_rows d now s)
  = Some (row_after d now s).
Proof.
  unfold upsert_rows, row_after.
  destruct (existsb _ _) eqn:E.
  - rewrite (find_fmap_update _ (do_update d now)) by done.
    destruct (List.find _ _) eqn:F; [done|].
    apply find_none_existsb in F. congruence.
  - apply find_none_existsb in E. rewrite E.
    apply find_app_none; [done|]. by apply has_document_id_true.
Qed.

Lemma row_after_id_pos d now s :
  store_wf s → 0 < Period.id (row_after d now s).
Proof.
  intros [_ _ Hr Hs]. unfold row_after.
  destruct (List.find _ _) as [old|] eqn:F; simpl; [|lia].
  apply find_some in F as [Hin _]. apply list_elem_of_In in Hin.
  apply Hr in Hin. lia.
Qed.

Lemma upsert_accepts d now s :
  check_dates (Draft.posted_date d) (Draft.comment_end_date d) = true →
  upsert_comment_period d now s =
    (Ok (Period.id (row_after d now s)),
     {| comment_periods := upsert_rows d now s;
        bot_posts := bot_posts s;
        sqlite_sequence := sqlite_sequence s + 1 |}).
Proof.
  intros Hc. unfold upsert_comment_period. rewrite Hc. simpl.
  f_equal. destruct (existsb _ _) eqn:E.
  - simpl. unfold select_id. by rewrite find_upsert_rows.
  - destruct (0 <? _) eqn:P.
    + unfold row_after. apply find_none_existsb in E. by rewrite E.
    + unfold select_id. by rewrite find_upsert_rows.
Qed.

Lemma upsert_rejects d now s :
  check_dates (Draft.posted_date d) (Draft.comment_end_date d) = false →
  upsert_comment_period d now s = (Raise IntegrityError, s).
Proof. intros Hc. unfold upsert_comment_period. by rewrite Hc. Qed.

Lemma fmap_update_proj {B} (proj : Period.t → B) (p : Period.t → bool)
    (g : Period.t → Period.t) (rows : list Period.t) :
  (∀ r, proj (g r) = proj r) →
  proj <$> ((λ r, if p r then g r else r) <$> rows) = proj <$> rows.
Proof.
  intros Hg. rewrite <- list_fmap_compose. apply list_fmap_ext.
  intros i r _. simpl. by destruct (p r).
Qed.

Lemma upsert_rows_wf d now s :
  store_wf s →
  store_wf {| comment_periods := upsert_rows d now s;
              bot_posts := bot_posts s;
              sqlite_sequence := sqlite_sequence s + 1 |}.
Proof.
  intros [Hd Hi Hr Hs]. unfold upsert_rows.
  destruct (existsb _ _) eqn:E; split; simpl.
  - by rewrite fmap_update_proj.
  - by rewrite fmap_update_proj.
  - intros r' (r & -> & Hin)%list_elem_of_fmap.
    apply Hr in Hin. destruct (has_document_id _ r); simpl; lia.
  - lia.
  - rewrite fmap_app. apply NoDup_app. split; [done|]. split; [|apply NoDup_singleton].
    intros doc Hdoc ->%list_elem_of_singleton.
    apply existsb_has_document_id in Hdoc. simpl in Hdoc. congruence.
  - rewrite fmap_app. apply NoDup_app. split; [done|]. split; [|apply NoDup_singleton].
    intros i (r & -> & Hin)%list_elem_of_fmap ?%list_elem_of_singleton.
    apply Hr in Hin. simpl in *. lia.
  - intros r [Hin | ->%list_elem_of_singleton]%elem_of_app.
    + apply Hr in Hin. lia.
    + simpl. lia.
  - lia.
Qed.

Lemma upsert_wf d now s :
  store_wf s → store_wf (upsert_comment_period d now s).2.
Proof.
  intros Hwf.
  destruct (check_dates (Draft.posted_date d) (Draft.comment_end_date d)) eqn:Hc.
  - rewrite upsert_accepts by done. by apply upsert_rows_wf.
  - by rewrite upsert_rejects.
Qed.

Lemma mark_posted_wf pid pt uri s :
  store_wf s → store_wf (mark_posted pid pt uri s).2.
Proof.
  intros [Hd Hi Hr Hs]. unfold mark_posted.
  destruct (field_map pt) as [f|]; [|done].
  split; simpl; [by rewrite fmap_update_proj..| |done].
  intros r' (r & -> & Hin)%list_elem_of_fmap. apply Hr in Hin.
  by destruct (Period.id r =? pid).
Qed.

Lemma empty_store_wf : store_wf empty_store.
Proof. split; simpl; [constructor..| |done]. intros r Hr. inversion Hr. Qed.

Lemma run_ops_wf ops : ∀ s, store_wf s → store_wf (run_ops ops s).
Proof.
  induction ops as [|o ops IH]; intros s Hwf; [done|].
  apply IH. destruct o; simpl; auto using upsert_wf, mark_posted_wf.
Qed.






Lemma provided_optional_lookup (kw : gmap string (option string)) k :
  provided_optional kw !! k =
    if decide (k ∈ optional_fields) then mjoin (kw !! k) else None.
Proof.
  unfold provided_optional. rewrite lookup_omap, map_lookup_filter.
  destruct (kw !! k) as [v|]; simpl; [|by case_decide].
  repeat case_decide; simpl in *; try done.
Qed.

Lemma provided_optional_insert_None kw k :
  provided_optional (<[k:=None]> kw) = provided_optional (delete k kw).
Proof.
  apply map_eq. intros i. rewrite !provided_optional_lookup.
  case_decide; [|done].
  destruct (decide (k = i)) as [->|Hne].
  - by rewrite lookup_insert_eq, lookup_delete_eq.
  - by rewrite lookup_insert_ne, lookup_delete_ne.
Qed.

Lemma provided_optional_insert_unknown kw k v :
  k ∉ optional_fields →
  provided_optional (<[k:=v]> kw) = provided_optional (delete k kw).
Proof.
  intros Hk. apply map_eq. intros i. rewrite !provided_optional_lookup.
  case_decide; [|done].
  assert (k ≠ i) by congruence.
  by rewrite lookup_insert_ne, lookup_delete_ne.
Qed.

Lemma upsert_kwargs_ext d kw1 kw2 now s :
  provided_optional kw1 = provided_optional kw2 →
  upsert_comment_period (Draft.with_kwargs d kw1) now s
  = upsert_comment_period (Draft.with_kwargs d kw2) now s.
Proof.
  intros H. unfold upsert_comment_period, upsert_rows, do_update, inserted_row.
  simpl. by rewrite H.
Qed.

Lemma upsert_keeps_optional d now s old k :
  provided_optional (Draft.kwargs d) !! k = None →
  old ∈ comment_periods s →
  ∃ r', r' ∈ comment_periods (upsert_comment_period d now s).2
        ∧ Period.id r' = Period.id old
        ∧ Period.optional r' !! k = Period.optional old !! k.
Proof.
  intros Hk Hin. rewrite upsert_rows_spec.
  destruct (check_dates _ _); [|by exists old].
  unfold upsert_rows. destruct (existsb _ _).
  - exists (if has_document_id (Draft.document_id d) old then do_update d now old else old).
    split; [apply list_elem_of_fmap; by exists old|].
    destruct (has_document_id _ old); [|done]. simpl.
    split; [done|]. by rewrite lookup_union_r.
  - exists old. split; [|done]. apply elem_of_app. by left.
Qed.

(** C10: a keyword that is [None] is treated as an absent one, and a
    keyword outside [optional_fields] is ignored: the call behaves as the
    call without that keyword, the column is not among the optional
    fields of the statement, and the stored value of the column is
    kept. *)
Theorem upsert_none_and_unknown_kwargs :
  length optional_fields = 9%nat
  ∧ (∀ d kw k now s,
     upsert_comment_period (Draft.with_kwargs d (<[k:=None]> kw)) now s
     = upsert_comment_period (Draft.with_kwargs d (delete k kw)) now s)
  ∧ (∀ d kw k v now s, k ∉ optional_fields →
     upsert_comment_period (Draft.with_kwargs d (<[k:=v]> kw)) now s
     = upsert_comment_period (Draft.with_kwargs d (delete k kw)) now s)
  ∧ (∀ d k, Draft.kwargs d !! k = Some None ∨ k ∉ optional_fields →
     provided_optional (Draft.kwargs d) !! k = None ∧ k ∉ drop 8 (fields d))
  ∧ (∀ d now s old k,
     Draft.kwargs d !! k = Some None ∨ k ∉ optional_fields →
     old ∈ comment_periods s →
     ∃ r', r' ∈ comment_periods (upsert_comment_period d now s).2
           ∧ Period.id r' = Period.id old
           ∧ Period.optional r' !! k = Period.optional old !! k).
Proof.
  assert (∀ d k, Draft.kwargs d !! k = Some None ∨ k ∉ optional_fields →
                 provided_optional (Draft.kwargs d) !! k = None) as Hnone.
  { intros d k H. rewrite provided_optional_lookup. case_decide; [|done].
    destruct H as [-> | H]; done. }
  split; [done|]. repeat split.
  - intros. apply upsert_kwargs_ext, provided_optional_insert_None.
  - intros. by apply upsert_kwargs_ext, provided_optional_insert_unknown.
  - by apply Hnone.
  - unfold fields. simpl. intros (kv & -> & Hkv)%list_elem_of_fmap.
    destruct kv as [k' v']. apply elem_of_map_to_list in Hkv.
    simpl in *. rewrite Hnone in Hkv; done.
  - intros d now s old k H Hin. apply upsert_keeps_optional; [by apply Hnone | done].
Qed.

Lemma upsert_none_and_unknown_kwargs_witness :
("posted_new"%string ∉ optional_fields)
  ∧ upsert_comment_period
      (Draft.with_kwargs epa_update (<["posted_new" := Some "1"%string]> ∅))
      3 ingested_store
    = upsert_comment_period
        (Draft.with_kwargs epa_update (delete "posted_new" ∅)) 3 ingested_store.
Proof.
  assert ("posted_new"%string ∉ optional_fields) as Hk
    by (apply (bool_decide_unpack _); reflexivity).
  split; [exact Hk|].
  exact (proj1 (proj2 (proj2 upsert_none_and_unknown_kwargs)) epa_update ∅ "posted_new"%string
           (Some "1"%string) 3 ingested_store Hk).
Defined.

Lemma order_le_total : Total order_le.
Proof.
  intros a b. unfold order_le, order_leb.
  rewrite (String.compare_antisym (Period.agency_id a) (Period.agency_id b)).
  rewrite (String.compare_antisym (Period.title a) (Period.title b)).
  destruct (String.compare (Period.agency_id b) (Period.agency_id a));
    simpl; auto.
  destruct (String.compare (Period.title b) (Period.title a)); simpl; auto.
Qed.

Lemma reminder_field_days days f :
  reminder_field days = Some f →
  (days = 7 ∧ f = F_posted_7day_reminder)
  ∨ (days = 3 ∧ f = F_posted_3day_reminder)
  ∨ (days = 1 ∧ f = F_posted_last_day).
Proof.
  unfold reminder_field.
  destruct (Z.eqb_spec days 7); [intros [= <-]; auto|].
  destruct (Z.eqb_spec days 3); [intros [= <-]; auto|].
  destruct (Z.eqb_spec days 1); [intros [= <-]; auto|]. done.
Qed.

Lemma closing_on_true target f r :
  closing_on target f r = true ↔
  Period.comment_end_date r = target ∧ flag_value f r = false.
Proof.
  unfold closing_on. rewrite andb_true_iff, Z.eqb_eq, negb_true_iff. done.
Qed.

Lemma get_closing_soon_rows today days s f :
  reminder_field days = Some f →
  get_closing_soon today days s =
    Ok (merge_sort order_le
          (List.filter (closing_on (today + days) f) (comment_periods s))).
Proof.
  intros Hf. unfold get_closing_soon. rewrite Hf.
  apply reminder_field_days in Hf as [[-> _] | [[-> _] | [-> _]]]; done.
Qed.

(** C3: for 7, 3 and 1 days [get_closing_soon] returns, ordered by agency
    and title, exactly the rows whose [comment_end_date] is today plus
    that many days and whose reminder flag is still false.  A row due in
    7 days with the 7-day flag unset is in the 7-day result; a row due in
    8 days is not. *)
Theorem closing_soon_exact_date :
  (∀ today days s f, reminder_field days = Some f →
     ∃ rows, get_closing_soon today days s = Ok rows
       ∧ rows ≡ₚ List.filter (closing_on (today + days) f) (comment_periods s)
       ∧ Sorted order_le rows
       ∧ ∀ r, r ∈ rows ↔
              r ∈ comment_periods s
              ∧ Period.comment_end_date r = today + days
              ∧ flag_value f r = false)
  ∧ reminder_field 7 = Some F_posted_7day_reminder
  ∧ reminder_field 3 = Some F_posted_3day_reminder
  ∧ reminder_field 1 = Some F_posted_last_day
  ∧ (∀ today s r, r ∈ comment_periods s →
     Period.posted_7day_reminder r = false →
     Period.comment_end_date r = today + 7 →
     ∃ rows, get_closing_soon today 7 s = Ok rows ∧ r ∈ rows)
  ∧ (∀ today s r, Period.comment_end_date r = today + 8 →
     ∃ rows, get_closing_soon today 7 s = Ok rows ∧ r ∉ rows).
Proof.
  assert (∀ today days s f r,
    r ∈ merge_sort order_le
          (List.filter (closing_on (today + days) f) (comment_periods s)) ↔
    r ∈ comment_periods s ∧ Period.comment_end_date r = today + days
    ∧ flag_value f r = false) as Hmem.
  { intros. rewrite merge_sort_Permutation, list_elem_of_In, filter_In.
    by rewrite closing_on_true, list_elem_of_In. }
  repeat split; try done.
  - intros today days s f Hf. eexists. split; [by apply get_closing_soon_rows|].
    split; [apply merge_sort_Permutation|].
    split; [apply Sorted_merge_sort, order_le_total | apply Hmem].
  - intros today s r Hin Hfl Hend. eexists.
    split; [by apply get_closing_soon_rows|]. by apply Hmem.
  - intros today s r Hend. eexists.
    split; [by apply get_closing_soon_rows|].
    rewrite Hmem. intros (_ & H & _). lia.
Qed.

Lemma closing_soon_exact_date_witness :
  reminder_field 7 = Some F_posted_7day_reminder
  ∧ ∃ rows, get_closing_soon 0 7 posted_store = Ok rows
            ∧ fda_row ∈ rows ∧ epa_row ∉ rows.
Proof.
  split; [reflexivity|].
  destruct (proj1 closing_soon_exact_date 0 7 posted_store F_posted_7day_reminder
              eq_refl) as (rows & Hrows & _ & _ & Hmem).
  exists rows. split; [exact Hrows|]. split.
  - apply Hmem. split; [vm_compute; right; left | split; reflexivity].
  - intros H. apply Hmem in H as (_ & H & _). discriminate H.
Defined.

(** ** The fetch engine *)

Lemma time_sleep_int n w :
  0 ≤ n ≤ 9223372036 →
  time_sleep (inject_Z n) w = (Ok tt, slept (inject_Z n) w).
Proof.
  intros [Hlo Hhi]. unfold time_sleep.
  assert (Qle_bool 0 (inject_Z n) = true) as ->.
  { apply Qle_bool_iff. change 0%Q with (inject_Z 0). by rewrite <- Zle_Qle. }
  assert (Qle_bool (inject_Z n) SLEEP_MAX = true) as ->; [|done].
  apply Qle_bool_iff. unfold SLEEP_MAX. by rewrite <- Zle_Qle.
Qed.

Lemma backoff_in_range attempt :
  0 ≤ attempt ≤ 33 → 0 ≤ 2 ^ attempt ≤ 9223372036.
Proof.
  intros [Hlo Hhi]. split; [by apply Z.pow_nonneg|].
  transitivity (2 ^ 33); [by apply Z.pow_le_mono_r | done].
Qed.

Lemma time_sleep_negative n w :
  n < 0 → time_sleep (inject_Z n) w = (Raise ValueError, w).
Proof.
  intros Hn. unfold time_sleep.
  destruct (Qle_bool 0 (inject_Z n)) eqn:E; [|done].
  apply Qle_bool_iff in E. change 0%Q with (inject_Z 0) in E.
  rewrite <- Zle_Qle in E. lia.
Qed.

Section Attempts.
Variable server : nat → reply.
Variable rq : request.

Lemma attempts_rejected remaining attempt w r :
  server (sent w) = Responded r →
  400 ≤ status_code r < 500 → status_code r ≠ 429 →
  attempts server rq (S remaining) attempt w = (Ok None, requested rq w).
Proof.
  intros Hr [Hlo Hhi] Hne. simpl. unfold bind, session_get. rewrite Hr.
  destruct (Z.eqb_spec (status_code r) 429); [done|].
  assert ((500 <=? status_code r) = false) as -> by lia. simpl.
  assert ((400 <=? status_code r) = true) as -> by lia.
  assert ((status_code r <? 500) = true) as -> by lia. done.
Qed.

Lemma attempts_backoff remaining attempt w :
  retryable (server (sent w)) = true → 0 ≤ attempt ≤ 33 →
  attempts server rq (S remaining) attempt w =
  attempts server rq remaining (attempt + 1)
    (slept (inject_Z (2 ^ attempt)) (requested rq w)).
Proof.
  intros Hr Ha. simpl. unfold bind at 1, session_get.
  assert (∀ w1, (do time_sleep (inject_Z (2 ^ attempt)) then
                 attempts server rq remaining (attempt + 1)) w1
                = attempts server rq remaining (attempt + 1)
                    (slept (inject_Z (2 ^ attempt)) w1)) as Hsleep.
  { intros w1. unfold bind. by rewrite time_sleep_int by by apply backoff_in_range. }
  destruct (server (sent w)) as [r| | |]; simpl in Hr; try done.
  apply andb_true_iff in Hr as [H5 H6].
  destruct (Z.eqb_spec (status_code r) 429) as [E|_]; [rewrite E in *; done|].
  by rewrite H5, H6.
Qed.

Lemma attempts_rate_limited remaining attempt w r seconds :
  server (sent w) = Responded r → status_code r = 429 →
  retry_after_seconds r = Ok seconds → 0 ≤ seconds ≤ 9223372036 →
  attempts server rq (S remaining) attempt w =
  attempts server rq remaining (attempt + 1)
    (slept (inject_Z seconds) (requested rq w)).
Proof.
  intros Hr Hs Hsec Hrange. simpl. unfold bind at 1, session_get.
  rewrite Hr, Hs. simpl. unfold bind, lift. rewrite Hsec.
  by rewrite time_sleep_int.
Qed.

Lemma attempts_retry_after_raises remaining attempt w r e :
  server (sent w) = Responded r → status_code r = 429 →
  retry_after_seconds r = Raise e →
  attempts server rq (S remaining) attempt w = (Raise e, requested rq w).
Proof.
  intros Hr Hs He. simpl. unfold bind at 1, session_get.
  rewrite Hr, Hs. simpl. unfold bind, lift. by rewrite He.
Qed.

Lemma attempts_success remaining attempt w r :
  server (sent w) = Responded r →
  (status_code r < 400 ∨ 600 ≤ status_code r) →
  attempts server rq (S remaining) attempt w = (Ok (Some r), requested rq w).
Proof.
  intros Hr Hs. simpl. unfold bind, session_get. rewrite Hr.
  assert ((status_code r =? 429) = false) as -> by lia.
  destruct Hs.
  - assert ((500 <=? status_code r) = false) as -> by lia. simpl.
    assert ((400 <=? status_code r) = false) as -> by lia. done.
  - assert ((status_code r <? 600) = false) as -> by lia.
    rewrite andb_false_r.
    assert ((status_code r <? 500) = false) as -> by lia.
    by rewrite andb_false_r.
Qed.

Lemma backed_off_sent n : ∀ attempt w,
  sent (backed_off rq n attempt w) = (n + sent w)%nat.
Proof.
  induction n as [|n IH]; intros attempt w; simpl; [done|].
  rewrite IH. simpl. lia.
Qed.

Lemma backed_off_trace n : ∀ attempt w,
  trace (backed_off rq n attempt w) = trace w ++ backoff_trace rq n attempt.
Proof.
  induction n as [|n IH]; intros attempt w; simpl; [by rewrite app_nil_r|].
  rewrite IH. simpl. by rewrite <- !app_assoc.
Qed.

Lemma attempts_backoff_run n : ∀ remaining attempt w,
  (∀ i, (i < n)%nat → retryable (server (sent w + i)) = true) →
  0 ≤ attempt → attempt + Z.of_nat n ≤ 34 →
  attempts server rq (n + remaining) attempt w =
  attempts server rq remaining (attempt + Z.of_nat n) (backed_off rq n attempt w).
Proof.
  induction n as [|n IH]; intros remaining attempt w Hall Hlo Hhi.
  - simpl. by rewrite Z.add_0_r.
  - change (S n + remaining)%nat with (S (n + remaining)).
    rewrite attempts_backoff; [| |lia].
    2: { specialize (Hall O). rewrite Nat.add_0_r in Hall. apply Hall. lia. }
    rewrite IH; [|simpl|lia..].
    + simpl. f_equal. lia.
    + intros i Hi. specialize (Hall (S i)).
      replace (S (sent w + i))%nat with (sent w + S i)%nat by lia.
      apply Hall. lia.
Qed.

End Attempts.

Lemma rate_limit_returns rate_limit w :
  (last_request_time w <= now w)%Q → (rate_limit <= SLEEP_MAX)%Q →
  ∃ w1, _rate_limit rate_limit w = (Ok tt, w1)
        ∧ sent w1 = sent w
        ∧ (trace w1 = trace w
           ∨ trace w1 = trace w ++ [Sleep (rate_limit - (now w - last_request_time w))]).
Proof.
  intros Hclock Hmax. unfold _rate_limit.
  destruct (Qle_bool rate_limit (now w - last_request_time w)) eqn:E; simpl.
  - eexists. split; [reflexivity|]. simpl. auto.
  - assert (¬ (rate_limit <= now w - last_request_time w)%Q) as Hlt.
    { intros H. apply Qle_bool_iff in H. congruence. }
    unfold time_sleep.
    assert (Qle_bool 0 (rate_limit - (now w - last_request_time w)) = true) as ->.
    { apply Qle_bool_iff. lra. }
    assert (Qle_bool (rate_limit - (now w - last_request_time w)) SLEEP_MAX = true) as ->.
    { apply Qle_bool_iff. lra. }
    simpl. eexists. split; [reflexivity|]. simpl. auto.
Qed.

Lemma fetch_page_paced server rate_limit rq max_retries w w1 :
  _rate_limit rate_limit w = (Ok tt, w1) →
  fetch_page server rate_limit rq max_retries w =
  attempts server rq (Z.to_nat max_retries) 0 w1.
Proof. intros H. unfold fetch_page, bind. by rewrite H. Qed.

(** C7: the retry policy of [fetch_page].  A 4xx response other than 429
    ends the call with [None] at once, with no sleep and no further
    request.  A 5xx response, a timeout or a connection error is followed
    by a sleep of [2 ^ attempt] seconds and the next attempt.  When every
    attempt fails that way the result is [None], after [max_retries]
    requests and the backoffs 1, 2, 4, ...  Stated for up to 34 attempts,
    the backoffs [time.sleep] accepts. *)
Theorem fetch_page_retry_policy
    (server : nat → reply) (rate_limit : Q) (rq : request) :
  (∀ remaining attempt w r,
     server (sent w) = Responded r →
     400 ≤ status_code r < 500 → status_code r ≠ 429 →
     attempts server rq (S remaining) attempt w = (Ok None, requested rq w))
  ∧ (∀ remaining attempt w,
     retryable (server (sent w)) = true → 0 ≤ attempt ≤ 33 →
     attempts server rq (S remaining) attempt w =
     attempts server rq remaining (attempt + 1)
       (slept (inject_Z (2 ^ attempt)) (requested rq w)))
  ∧ (∀ max_retries w w1,
     0 ≤ max_retries ≤ 34 →
     _rate_limit rate_limit w = (Ok tt, w1) →
     (∀ i, (i < Z.to_nat max_retries)%nat →
           retryable (server (sent w1 + i)%nat) = true) →
     ∃ w', fetch_page server rate_limit rq max_retries w = (Ok None, w')
           ∧ sent w' = (Z.to_nat max_retries + sent w1)%nat
           ∧ trace w' = trace w1 ++ backoff_trace rq (Z.to_nat max_retries) 0)
  ∧ (∀ max_retries w w1 k r,
     0 ≤ k < max_retries → max_retries ≤ 34 →
     _rate_limit rate_limit w = (Ok tt, w1) →
     (∀ i, (i < Z.to_nat k)%nat → retryable (server (sent w1 + i)%nat) = true) →
     server (sent w1 + Z.to_nat k)%nat = Responded r →
     400 ≤ status_code r < 500 → status_code r ≠ 429 →
     ∃ w', fetch_page server rate_limit rq max_retries w = (Ok None, w')
           ∧ sent w' = S (Z.to_nat k + sent w1)
           ∧ trace w' = trace w1 ++ backoff_trace rq (Z.to_nat k) 0 ++ [Get rq]).
Proof.
  split; [apply attempts_rejected|].
  split; [apply attempts_backoff|].
  split.
  - intros max_retries w w1 Hm Hp Hall.
    exists (backed_off rq (Z.to_nat max_retries) 0 w1).
    rewrite (fetch_page_paced _ _ _ _ _ _ Hp).
    rewrite <- (Nat.add_0_r (Z.to_nat max_retries)) at 1.
    rewrite attempts_backoff_run; [|done|lia..].
    by rewrite backed_off_sent, backed_off_trace.
  - intros max_retries w w1 k r Hk Hm Hp Hall Hr Hs Hne.
    exists (requested rq (backed_off rq (Z.to_nat k) 0 w1)).
    rewrite (fetch_page_paced _ _ _ _ _ _ Hp).
    replace (Z.to_nat max_retries)
      with (Z.to_nat k + S (Z.to_nat (max_retries - k - 1)))%nat by lia.
    rewrite attempts_backoff_run; [|done|lia..].
    rewrite (attempts_rejected _ _ _ _ _ r); [| |done..].
    + simpl. rewrite backed_off_sent, backed_off_trace.
      by rewrite <- app_assoc.
    + rewrite backed_off_sent. by rewrite Nat.add_comm.
Qed.

Lemma fetch_page_retry_policy_witness :
  _rate_limit 1 start = (Ok tt, (_rate_limit 1 start).2)
  ∧ (∃ w', fetch_page always_down 1 a_request 3 start = (Ok None, w')
           ∧ sent w' = 3%nat
           ∧ trace w' = [Get a_request; Sleep 1; Get a_request; Sleep 2;
                         Get a_request; Sleep 4])
  ∧ (∃ w', fetch_page down_then_not_found 1 a_request 3 start = (Ok None, w')
           ∧ sent w' = 2%nat
           ∧ trace w' = [Get a_request; Sleep 1; Get a_request]).
Proof.
  split; [reflexivity|]. split.
  - apply (proj1 (proj2 (proj2 (fetch_page_retry_policy always_down 1 a_request)))
             3 start (_rate_limit 1 start).2); [lia | reflexivity |].
    intros i _. reflexivity.
  - apply (proj2 (proj2 (proj2 (fetch_page_retry_policy down_then_not_found 1 a_request)))
             3 start (_rate_limit 1 start).2 1 not_found);
      [lia | lia | reflexivity | | reflexivity | simpl; lia | discriminate].
    intros i Hi. assert (i = O) as -> by lia. reflexivity.
Defined.

(** C4 (amended): on a 429 [fetch_page] reads [Retry-After] (60 when the
    header is absent), sleeps that long and goes on to the next attempt
    with the same request: the 429 uses up one of the [max_retries]
    attempts, and on the last attempt the result is [None] once the
    pause is over.  Stated for a header that [int] reads as a number of
    seconds [time.sleep] accepts. *)
Theorem rate_limited_consumes_attempt
    (server : nat → reply) (rate_limit : Q) (rq : request) :
  (∀ r, retry_after r = None → retry_after_seconds r = Ok 60)
  ∧ (∀ remaining attempt w r seconds,
       server (sent w) = Responded r → status_code r = 429 →
       retry_after_seconds r = Ok seconds → 0 ≤ seconds ≤ 9223372036 →
       attempts server rq (S remaining) attempt w =
       attempts server rq remaining (attempt + 1)
         (slept (inject_Z seconds) (requested rq w)))
  ∧ (∀ max_retries w w1 r seconds,
       _rate_limit rate_limit w = (Ok tt, w1) → 0 < max_retries →
       server (sent w1) = Responded r → status_code r = 429 →
       retry_after_seconds r = Ok seconds → 0 ≤ seconds ≤ 9223372036 →
       fetch_page server rate_limit rq max_retries w =
       attempts server rq (Z.to_nat max_retries - 1) 1
         (slept (inject_Z seconds) (requested rq w1)))
  ∧ (∀ attempt w r seconds,
       server (sent w) = Responded r → status_code r = 429 →
       retry_after_seconds r = Ok seconds → 0 ≤ seconds ≤ 9223372036 →
       attempts server rq 1 attempt w =
       (Ok None, slept (inject_Z seconds) (requested rq w))).
Proof.
  split; [intros r H; unfold retry_after_seconds; by rewrite H|].
  split; [apply attempts_rate_limited|].
  split.
  - intros max_retries w w1 r seconds Hp Hm Hr Hs Hsec Hrange.
    rewrite (fetch_page_paced _ _ _ _ _ _ Hp).
    replace (Z.to_nat max_retries) with (S (Z.to_nat max_retries - 1)) at 1 by lia.
    by rewrite (attempts_rate_limited _ _ _ _ _ r seconds).
  - intros attempt w r seconds Hr Hs Hsec Hrange.
    by rewrite (attempts_rate_limited _ _ _ _ _ r seconds).
Qed.

Lemma rate_limited_consumes_attempt_witness :
  rate_limited_once (sent start) = Responded (too_many_requests None)
  ∧ retry_after_seconds (too_many_requests None) = Ok 60
  ∧ attempts rate_limited_once a_request 1 0 start =
      (Ok None, slept 60 (requested a_request start))
  ∧ rate_limited_once (sent (requested a_request start))
    = Responded (success (VDict ∅)).
Proof.
  split; [reflexivity|]. split; [reflexivity|]. split; [|reflexivity].
  apply (proj2 (proj2 (proj2
           (rate_limited_consumes_attempt rate_limited_once 1 a_request)))
           0 start (too_many_requests None) 60);
    [reflexivity | reflexivity | reflexivity | lia].
Defined.

(** C4, as the claim states it: once the pause is over, all of
    [max_retries] attempts would still be ahead.  Three 429 responses use
    up the three attempts of the default, and the success the server has
    ready for the fourth request is never asked for. *)
Lemma rate_limited_attempt_is_not_free :
  fetch_page rate_limited_thrice 1 a_request 3 start =
    (Ok None,
     {| now := 1180; last_request_time := 1000; sent := 3;
        trace := [Get a_request; Sleep 60; Get a_request; Sleep 60;
                  Get a_request; Sleep 60] |})
  ∧ rate_limited_thrice 3 = Responded (success (VDict ∅))
  ∧ ¬ (∀ server rq max_retries w w1 r seconds,
         _rate_limit 1 w = (Ok tt, w1) → 0 < max_retries →
         server (sent w1) = Responded r → status_code r = 429 →
         retry_after_seconds r = Ok seconds → 0 ≤ seconds ≤ 9223372036 →
         fetch_page server 1 rq max_retries w =
         attempts server rq (Z.to_nat max_retries) 0
           (slept (inject_Z seconds) (requested rq w1))).
Proof.
  split; [by vm_compute|]. split; [done|].
  intros H.
  assert (fetch_page rate_limited_once 1 a_request 1 start =
          attempts rate_limited_once a_request 1 0
            (slept 60 (requested a_request (_rate_limit 1 start).2))) as E.
  { apply (H rate_limited_once a_request 1 start (_rate_limit 1 start).2
             (too_many_requests None) 60);
      [reflexivity | lia | reflexivity | reflexivity | reflexivity | lia]. }
  vm_compute in E. discriminate E.
Qed.

(** C8: [fetch_page] does not always return a response or [None].  A 429
    whose [Retry-After] is an HTTP date makes [int] raise a ValueError
    inside the [try], and no [except] clause of [fetch_page] catches
    it. *)
Theorem fetch_page_raises_on_retry_after_date :
  fetch_page retry_after_date 1 a_request 3 start =
    (Raise ValueError,
     {| now := 1000; last_request_time := 1000; sent := 1;
        trace := [Get a_request] |}).
Proof. by vm_compute. Qed.

(** ** Pagination *)

Lemma fetch_pages_next key_order server fuel page acc w items w1 :
  page_fetched key_order server page w items w1 →
  fetch_pages key_order server (S fuel) page acc w =
  fetch_pages key_order server fuel (page + 1) (acc ++ items) w1.
Proof.
  intros (r & data & documents & meta & total & Hf & Hok & Hj & Hc & Hg & Hi & Hm & Ht & Hl).
  simpl. unfold bind at 1. rewrite Hf, Hok, Hj. simpl.
  unfold bind, lift, py_extend, and_then.
  by rewrite Hc, Hg, Hi, Hm, Ht, Hl.
Qed.

Lemma fetch_pages_break key_order server fuel page acc w w' :
  page_failed server page w w' →
  fetch_pages key_order server (S fuel) page acc w = (Ok (Finished acc), w').
Proof.
  intros [Hf | (r & Hf & Hok & [Hj | (data & Hj & Hc)])];
    simpl; unfold bind at 1; rewrite Hf; [done| |]; rewrite Hok, Hj; simpl; [done|].
  unfold bind, lift. by rewrite Hc.
Qed.

Lemma fetch_pages_raise key_order server fuel page acc w e w' :
  page_raises key_order server page w e w' →
  fetch_pages key_order server (S fuel) page acc w = (Raise e, w').
Proof.
  intros [Hf | (r & data & Hf & Hok & Hj & [Hc | [Hc He]])];
    simpl; unfold bind at 1; rewrite Hf; [done|..]; rewrite Hok, Hj; simpl;
    unfold bind at 1, lift; rewrite Hc; [done|]. simpl.
  revert He. unfold bind, lift, py_extend, is_last_page, and_then.
  destruct (py_getitem data "data") as [documents|]; [|congruence].
  destruct (py_iter key_order documents) as [items|]; [|congruence].
  destruct (py_get data "meta" (VDict ∅)) as [meta|]; [|congruence].
  destruct (py_get meta "totalPages" (VInt 1)) as [total|]; [|congruence].
  destruct (py_int_ge page total); congruence.
Qed.

Lemma pages_fetched_page key_order server page w pages page' w' :
  pages_fetched key_order server page w pages page' w' →
  page' = page + Z.of_nat (length pages).
Proof. induction 1; simpl; lia. Qed.

Lemma fetch_pages_through key_order server page w pages page' w1 :
  pages_fetched key_order server page w pages page' w1 →
  ∀ fuel acc,
    fetch_pages key_order server (length pages + fuel) page acc w =
    fetch_pages key_order server fuel page' (acc ++ concat pages) w1.
Proof.
  induction 1 as [page w | page w items w1 rest page' w2 Hp Hrest IH];
    intros fuel acc.
  - simpl. by rewrite app_nil_r.
  - change (length (items :: rest) + fuel)%nat with (S (length rest + fuel)).
    rewrite (fetch_pages_next _ _ _ _ _ _ _ _ Hp), IH. simpl.
    by rewrite app_assoc.
Qed.

Lemma fetch_pages_fail_open key_order server page w pages page' w1 w' :
  pages_fetched key_order server page w pages page' w1 →
  page_failed server page' w1 w' →
  ∀ fuel acc, (length pages < fuel)%nat →
    fetch_pages key_order server fuel page acc w
    = (Ok (Finished (acc ++ concat pages)), w').
Proof.
  intros Hp Hf fuel acc Hfuel.
  replace fuel with (length pages + S (fuel - length pages - 1))%nat by lia.
  rewrite (fetch_pages_through _ _ _ _ _ _ _ Hp). by apply fetch_pages_break.
Qed.

Lemma fetch_pages_raises_after key_order server page w pages page' w1 e w' :
  pages_fetched key_order server page w pages page' w1 →
  page_raises key_order server page' w1 e w' →
  ∀ fuel acc, (length pages < fuel)%nat →
    fetch_pages key_order server fuel page acc w = (Raise e, w').
Proof.
  intros Hp Hr fuel acc Hfuel.
  replace fuel with (length pages + S (fuel - length pages - 1))%nat by lia.
  rewrite (fetch_pages_through _ _ _ _ _ _ _ Hp). by apply fetch_pages_raise.
Qed.

Lemma first_page_of_three key_order server :
  server O = Responded (success (search_page [document "A"; document "B"] 3)) →
  pages_fetched key_order server 1 start [[document "A"; document "B"]] 2
    (requested (documents_request 1) (_rate_limit 1 start).2).
Proof.
  intros Hs. eapply pages_fetched_cons; [|apply pages_fetched_nil].
  exists (success (search_page [document "A"; document "B"] 3)),
         (search_page [document "A"; document "B"] 3),
         (VList [document "A"; document "B"]),
         (VDict {[ "totalPages" := VInt 3 ]}), (VInt 3).
  split; [|repeat split; reflexivity].
  unfold fetch_page, bind. simpl. unfold bind, session_get. simpl. by rewrite Hs.
Qed.

(** X1: the loop is fail-open at its three breaks.  When the pages
    before [failing_page] were fetched and read and [failing_page] ends
    the loop by what the source logs as a failure, "Failed to fetch
    documents" ([fetch_page] returned [None]), "Failed to parse JSON",
    or "Unexpected response structure" (no ['data']),
    [get_new_comment_periods] returns the items of all the pages before
    it, in order. *)
Theorem pagination_fail_open
    (key_order : gmap string value → list string)
    (server : nat → reply) (w : world) (pages : list (list value))
    (failing_page : Z) (w1 w' : world) (fuel : nat) :
  pages_fetched key_order server 1 w pages failing_page w1 →
  page_failed server failing_page w1 w' →
  (length pages < fuel)%nat →
  get_new_comment_periods key_order server fuel w
  = (Ok (Finished (concat pages)), w')
  ∧ failing_page = 1 + Z.of_nat (length pages).
Proof.
  intros Hp Hf Hfuel. split.
  - unfold get_new_comment_periods.
    by rewrite (fetch_pages_fail_open _ _ _ _ _ _ _ _ Hp Hf).
  - by eapply pages_fetched_page.
Qed.

Lemma pagination_fail_open_witness :
  get_new_comment_periods document_order second_page_down 2 start =
    (Ok (Finished [document "A"; document "B"]),
     (fetch_page second_page_down 1 (documents_request 2) 3
        (fetch_page second_page_down 1 (documents_request 1) 3 start).2).2)
  ∧ 2 = 1 + Z.of_nat 1.
Proof.
  apply (pagination_fail_open document_order second_page_down start
           [[document "A"; document "B"]] 2
           (fetch_page second_page_down 1 (documents_request 1) 3 start).2
           (fetch_page second_page_down 1 (documents_request 2) 3
              (fetch_page second_page_down 1 (documents_request 1) 3 start).2).2
           2%nat).
  - eapply pages_fetched_cons; [|apply pages_fetched_nil].
    exists (success (search_page [document "A"; document "B"] 3)),
           (search_page [document "A"; document "B"] 3),
           (VList [document "A"; document "B"]),
           (VDict {[ "totalPages" := VInt 3 ]}), (VInt 3).
    repeat split; reflexivity.
  - left. reflexivity.
  - simpl. lia.
Defined.

(** C5: pagination is not fail-open against an exception.  When the
    pages before [failing_page] were fetched and read and the fetch or
    the parse of [failing_page] raises, the exception leaves
    [get_new_comment_periods]: the call returns nothing and the items of
    the pages before are lost.  So it is, page 1 of 3 having brought two
    documents, when the body of page 2 is the JSON [null] (a TypeError
    in the test for ['data']), when its ['meta'] is [null] (an
    AttributeError) and when it is answered with a 429 whose
    [Retry-After] is an HTTP date (a ValueError in [fetch_page]). *)
Theorem pagination_drops_pages_on_exception :
  (∀ key_order server w pages failing_page w1 e w' fuel,
     pages_fetched key_order server 1 w pages failing_page w1 →
     page_raises key_order server failing_page w1 e w' →
     (length pages < fuel)%nat →
     get_new_comment_periods key_order server fuel w = (Raise e, w'))
  ∧ (∀ key_order fuel, (1 < fuel)%nat →
       (∃ w1, pages_fetched key_order second_page_null 1 start
                [[document "A"; document "B"]] 2 w1)
       ∧ (get_new_comment_periods key_order second_page_null fuel start).1
         = Raise TypeError)
  ∧ (∀ key_order fuel, (1 < fuel)%nat →
       (∃ w1, pages_fetched key_order second_page_meta_null 1 start
                [[document "A"; document "B"]] 2 w1)
       ∧ (get_new_comment_periods key_order second_page_meta_null fuel start).1
         = Raise AttributeError)
  ∧ (∀ key_order fuel, (1 < fuel)%nat →
       (∃ w1, pages_fetched key_order second_page_retry_after_date 1 start
                [[document "A"; document "B"]] 2 w1)
       ∧ (get_new_comment_periods key_order second_page_retry_after_date
            fuel start).1
         = Raise ValueError).
Proof.
  assert (∀ key_order server w pages failing_page w1 e w' fuel,
     pages_fetched key_order server 1 w pages failing_page w1 →
     page_raises key_order server failing_page w1 e w' →
     (length pages < fuel)%nat →
     get_new_comment_periods key_order server fuel w = (Raise e, w')) as Hgen.
  { intros key_order server w pages failing_page w1 e w' fuel Hp Hr Hfuel.
    unfold get_new_comment_periods.
    by apply (fetch_pages_raises_after _ _ _ _ _ _ _ _ _ Hp Hr). }
  split; [exact Hgen|].
  split; [|split]; intros key_order fuel Hfuel.
  - pose proof (first_page_of_three key_order second_page_null eq_refl) as Hp.
    split; [by eexists|].
    erewrite (Hgen _ _ _ _ _ _ TypeError); [done|exact Hp| |simpl; lia].
    right. exists (success VNone), VNone. repeat split. by left.
  - pose proof (first_page_of_three key_order second_page_meta_null eq_refl) as Hp.
    split; [by eexists|].
    erewrite (Hgen _ _ _ _ _ _ AttributeError); [done|exact Hp| |simpl; lia].
    right.
    exists (success (VDict {[ "data" := VList [document "C"]; "meta" := VNone ]})),
           (VDict {[ "data" := VList [document "C"]; "meta" := VNone ]}).
    repeat split. right. split; reflexivity.
  - pose proof (first_page_of_three key_order second_page_retry_after_date eq_refl)
      as Hp.
    split; [by eexists|].
    erewrite (Hgen _ _ _ _ _ _ ValueError); [done|exact Hp| |simpl; lia].
    left. reflexivity.
Qed.

Lemma pagination_drops_pages_on_exception_witness :
  get_new_comment_periods document_order second_page_null 2 start
  = (Raise TypeError,
     (fetch_page second_page_null 1 (documents_request 2) 3
        (fetch_page second_page_null 1 (documents_request 1) 3 start).2).2).
Proof.
  apply (proj1 pagination_drops_pages_on_exception document_order
           second_page_null start [[document "A"; document "B"]] 2
           (fetch_page second_page_null 1 (documents_request 1) 3 start).2).
  - eapply pages_fetched_cons; [|apply pages_fetched_nil].
    exists (success (search_page [document "A"; document "B"] 3)),
           (search_page [document "A"; document "B"] 3),
           (VList [document "A"; document "B"]),
           (VDict {[ "totalPages" := VInt 3 ]}), (VInt 3).
    repeat split; reflexivity.
  - right. exists (success VNone), VNone. repeat split. by left.
  - simpl. lia.
Defined.

(** ** Enrichment *)

Ltac enhance_cases :=
  unfold enhance, and_then, py_get;
  repeat case_match; simplify_eq; intros; simplify_eq.

Lemma enhance_frame period fr_doc enhanced k :
  enhance period fr_doc = Ok enhanced →
  k ≠ "abstract"%string → k ≠ "keywords"%string → k ≠ "document_type"%string →
  enhanced !! k = period !! k.
Proof.
  intros H Ha Hk Hd. revert H. enhance_cases;
    by rewrite ?lookup_insert_ne by done.
Qed.

Lemma enhance_keeps_abstract period fr_doc enhanced :
  enhance period fr_doc = Ok enhanced →
  truthy (dict_get period "abstract") = true →
  enhanced !! "abstract" = period !! "abstract".
Proof.
  intros H Ha. revert H. enhance_cases;
    try by rewrite ?lookup_insert_ne by done.
  all: rewrite Ha, andb_false_r in *; done.
Qed.

Lemma enhance_takes_abstract period fr_doc enhanced :
  enhance period (VDict fr_doc) = Ok enhanced →
  truthy (dict_get period "abstract") = false →
  truthy (dict_get fr_doc "abstract") = true →
  enhanced !! "abstract" = fr_doc !! "abstract".
Proof.
  intros H Hp Hs.
  assert (fr_doc !! "abstract" = Some (dict_get fr_doc "abstract")) as Hget.
  { unfold dict_get in *. by destruct (fr_doc !! "abstract"). }
  rewrite Hget. revert H. unfold enhance, and_then, py_get.
  change (default VNone (fr_doc !! "abstract")) with (dict_get fr_doc "abstract").
  rewrite Hs, Hp. simpl.
  repeat case_match; simplify_eq; intros; simplify_eq;
    by rewrite ?lookup_insert_ne, ?lookup_insert_eq by done.
Qed.

Lemma forallb_is_str_split (l : list string) (rest : list value) :
  forallb is_str ((VStr <$> l) ++ rest) = forallb is_str rest.
Proof. induction l as [|x l IH]; simpl; done. Qed.

Lemma enhance_returns period fr_doc :
  topics_mergeable period fr_doc = true →
  ∃ enhanced, enhance period (VDict fr_doc) = Ok enhanced.
Proof.
  unfold topics_mergeable, enhance, and_then, py_get.
  change (default VNone (fr_doc !! "topics")) with (dict_get fr_doc "topics").
  destruct (truthy (dict_get fr_doc "topics")) eqn:Ht; simpl; [|eauto].
  intros [Hl Hk]%andb_true_iff.
  destruct (dict_get fr_doc "topics") as [| | | |l|]; try done.
  unfold existing_topics.
  destruct (truthy (dict_get period "keywords")) eqn:Hkw; simpl in *.
  - destruct (dict_get period "keywords"); try done.
    unfold join_topics. rewrite forallb_is_str_split, Hl. eauto.
  - unfold join_topics. simpl. rewrite Hl. eauto.
Qed.

Lemma enrich_period_result server period w enriched w' :
  enrich_period server period w = (Ok enriched, w') →
  enriched = period ∨ ∃ fr_doc, enhance period fr_doc = Ok enriched.
Proof.
  unfold enrich_period, bind, lift, ret.
  repeat case_match; simplify_eq; intros; simplify_eq; eauto.
Qed.

Lemma enrich_period_merges server period num w fr_doc w1 :
  fr_doc_num period = Ok (Some num) → num ≠ ""%string →
  get_document server num w = (Ok (Some fr_doc), w1) →
  truthy fr_doc = true →
  enrich_period server period w = (enhance period fr_doc, w1).
Proof.
  intros Hn Hne Hg Ht. unfold enrich_period, bind, lift. rewrite Hn.
  destruct (String.eqb_spec num ""); [done|]. by rewrite Hg, Ht.
Qed.

(** C6: precedence of the abstract.  The merge of a period with a Federal
    Register document returns a draft whose abstract is the period's when
    that is truthy, whatever the document says, and the document's when
    the period's is empty or missing and the document's is truthy; the
    same holds of [enrich_period] once the document is fetched.  The
    merge returns whenever the topics can be joined; whenever it or
    [enrich_period] returns at all, a truthy abstract of the period is
    the abstract of the result. *)
Theorem merge_abstract_precedence :
  (∀ period fr_doc, topics_mergeable period fr_doc = true →
     ∃ enhanced, enhance period (VDict fr_doc) = Ok enhanced
       ∧ (truthy (dict_get period "abstract") = true →
          enhanced !! "abstract" = period !! "abstract")
       ∧ (truthy (dict_get period "abstract") = false →
          truthy (dict_get fr_doc "abstract") = true →
          enhanced !! "abstract" = fr_doc !! "abstract"))
  ∧ (∀ server period num w fr_doc w1,
       fr_doc_num period = Ok (Some num) → num ≠ ""%string →
       get_document server num w = (Ok (Some (VDict fr_doc)), w1) →
       truthy (VDict fr_doc) = true →
       topics_mergeable period fr_doc = true →
       ∃ enriched, enrich_period server period w = (Ok enriched, w1)
         ∧ (truthy (dict_get period "abstract") = true →
            enriched !! "abstract" = period !! "abstract")
         ∧ (truthy (dict_get period "abstract") = false →
            truthy (dict_get fr_doc "abstract") = true →
            enriched !! "abstract" = fr_doc !! "abstract"))
  ∧ (∀ server period w enriched w',
       enrich_period server period w = (Ok enriched, w') →
       truthy (dict_get period "abstract") = true →
       enriched !! "abstract" = period !! "abstract")
  ∧ (∀ period fr_doc enhanced,
       enhance period fr_doc = Ok enhanced →
       truthy (dict_get period "abstract") = true →
       enhanced !! "abstract" = period !! "abstract").
Proof.
  assert (∀ period fr_doc, topics_mergeable period fr_doc = true →
     ∃ enhanced, enhance period (VDict fr_doc) = Ok enhanced
       ∧ (truthy (dict_get period "abstract") = true →
          enhanced !! "abstract" = period !! "abstract")
       ∧ (truthy (dict_get period "abstract") = false →
          truthy (dict_get fr_doc "abstract") = true →
          enhanced !! "abstract" = fr_doc !! "abstract")) as Hmerge.
  { intros period fr_doc Hm.
    destruct (enhance_returns period fr_doc Hm) as [enhanced He].
    exists enhanced. split; [done|].
    split; eauto using enhance_keeps_abstract, enhance_takes_abstract. }
  split; [done|]. split.
  - intros server period num w fr_doc w1 Hn Hne Hg Ht Hm.
    destruct (Hmerge period fr_doc Hm) as (enhanced & He & H1 & H2).
    exists enhanced. split; [|done].
    rewrite (enrich_period_merges _ _ _ _ _ _ Hn Hne Hg Ht). by rewrite He.
  - split; [|apply enhance_keeps_abstract].
    intros server period w enriched w' He Ha.
    apply enrich_period_result in He as [-> | [fr_doc He]]; [done|].
    by eapply enhance_keeps_abstract.
Qed.

Lemma merge_abstract_precedence_witness :
  topics_mergeable primary_period fr_document = true
  ∧ ∃ enhanced, enhance primary_period (VDict fr_document) = Ok enhanced
                ∧ enhanced !! "abstract" = Some (VStr "X").
Proof.
  split; [reflexivity|].
  destruct (proj1 merge_abstract_precedence primary_period fr_document eq_refl)
    as (enhanced & He & _ & Hx).
  exists enhanced. split; [exact He|]. apply Hx; reflexivity.
Defined.

(** C9: [enrich_period] changes at most [abstract], [keywords] and
    [document_type]: every other field of the result is the field of the
    period.  Without a Federal Register URL the period comes back as it
    is and nothing is fetched. *)
Theorem enrichment_frame :
  (∀ server period w enriched w',
     enrich_period server period w = (Ok enriched, w') →
     ∀ k, k ≠ "abstract"%string → k ≠ "keywords"%string →
          k ≠ "document_type"%string →
          enriched !! k = period !! k)
  ∧ (∀ server period w,
       truthy (dict_get period "federal_register_url") = false →
       enrich_period server period w = (Ok period, w)).
Proof.
  split.
  - intros server period w enriched w' He k Ha Hk Hd.
    apply enrich_period_result in He as [-> | [fr_doc He]]; [done|].
    by eapply enhance_frame.
  - intros server period w Hu. unfold enrich_period, bind, lift, fr_doc_num.
    by rewrite Hu.
Qed.

Lemma enrichment_frame_witness :
  enrich_period federal_register primary_period start
    = (Ok enriched_period, fetched_once)
  ∧ enriched_period !! "title" = primary_period !! "title".
Proof.
  assert (enrich_period federal_register primary_period start
          = (Ok enriched_period, fetched_once)) as E by (vm_compute; reflexivity).
  split; [exact E|].
  apply (proj1 enrichment_frame federal_register primary_period start
           enriched_period fetched_once E); discriminate.
Defined.

(** ** More on the store *)

Lemma find_app_miss {A} (p : A → bool) l x :
  p x = false → List.find p (l ++ [x]) = List.find p l.
Proof.
  intros Hx. induction l as [|y l IH]; simpl; [by rewrite Hx|].
  by destruct (p y).
Qed.

Lemma find_other_document d now s doc :
  doc ≠ Draft.document_id d →
  List.find (has_document_id doc) (upsert_rows d now s)
  = List.find (has_document_id doc) (comment_periods s).
Proof.
  intros Hne. unfold upsert_rows. destruct (existsb _ _).
  - induction (comment_periods s) as [|r rows IH]; simpl; [done|].
    destruct (has_document_id (Draft.document_id d) r) eqn:E.
    + apply has_document_id_true in E.
      assert (has_document_id doc (do_update d now r) = false) as ->.
      { apply not_true_iff_false. rewrite has_document_id_true. simpl. congruence. }
      assert (has_document_id doc r = false) as ->; [|done].
      apply not_true_iff_false. rewrite has_document_id_true. congruence.
    + destruct (has_document_id doc r); [done | apply IH].
  - apply find_app_miss. apply not_true_iff_false.
    rewrite has_document_id_true. simpl. congruence.
Qed.

(** X10: an accepted upsert can be read back: the row under the draft's
    document id has the returned id and the draft's base columns, its
    [updated_at] is the time of the call and its [created_at] the time the
    document was first stored; the row of every other document id is the
    one that was there. *)
Theorem upsert_then_lookup (d : Draft.t) (now : Z) (s : store) :
  check_dates (Draft.posted_date d) (Draft.comment_end_date d) = true →
  ∃ (period_id : Z) (s' : store) (row : Period.t),
    upsert_comment_period d now s = (Ok period_id, s')
    ∧ get_period_by_document_id (Draft.document_id d) s' = Some row
    ∧ Period.id row = period_id
    ∧ Period.document_id row = Draft.document_id d
    ∧ Period.docket_id row = Draft.docket_id d
    ∧ Period.title row = Draft.title d
    ∧ Period.agency_id row = Draft.agency_id d
    ∧ Period.agency_name row = Draft.agency_name d
    ∧ Period.posted_date row = Draft.posted_date d
    ∧ Period.comment_end_date row = Draft.comment_end_date d
    ∧ Period.regulations_url row = Draft.regulations_url d
    ∧ Period.updated_at row = now
    ∧ Period.created_at row =
        match get_period_by_document_id (Draft.document_id d) s with
        | Some old => Period.created_at old
        | None => now
        end
    ∧ ∀ doc, doc ≠ Draft.document_id d →
        get_period_by_document_id doc s' = get_period_by_document_id doc s.
Proof.
  intros Hc. eexists _, _, (row_after d now s).
  split; [by apply upsert_accepts|].
  split; [apply find_upsert_rows|].
  unfold row_after, get_period_by_document_id.
  destruct (List.find _ (comment_periods s)) as [old|] eqn:F; simpl;
    repeat split; try done.
  - apply find_some in F as [_ F]. by apply has_document_id_true in F.
  - intros doc Hne. by apply find_other_document.
  - intros doc Hne. by apply find_other_document.
Qed.

Lemma upsert_then_lookup_witness :
  ∃ period_id s' row,
    upsert_comment_period epa_update 5 ingested_store = (Ok period_id, s')
    ∧ get_period_by_document_id "EPA-HQ-OW-2024-0123" s' = Some row
    ∧ period_id = 1
    ∧ Period.updated_at row = 5 ∧ Period.created_at row = 1
    ∧ get_period_by_document_id "FDA-2024-N-5678" s'
      = get_period_by_document_id "FDA-2024-N-5678" ingested_store.
Proof.
  destruct (upsert_then_lookup epa_update 5 ingested_store eq_refl)
    as (period_id & s' & row & H1 & H2 & H3 & _ & _ & _ & _ & _ & _ & _ & _
        & Hu & Hc & Ho).
  exists period_id, s', row.
  split; [exact H1|]. split; [exact H2|].
  split.
  { assert (upsert_comment_period epa_update 5 ingested_store
            = (Ok 1, (upsert_comment_period epa_update 5 ingested_store).2)) as E
      by (vm_compute; reflexivity).
    rewrite H1 in E. congruence. }
  split; [exact Hu|]. split; [exact Hc|].
  apply Ho. discriminate.
Defined.

Lemma upsert_dates_checked d now s :
  dates_checked s → dates_checked (upsert_comment_period d now s).2.
Proof.
  intros Hs r. rewrite upsert_rows_spec.
  destruct (check_dates _ _) eqn:Hc; [|apply Hs].
  unfold check_dates in Hc. apply Z.leb_le in Hc.
  unfold upsert_rows. destruct (existsb _ _).
  - intros (r0 & -> & Hin)%list_elem_of_fmap.
    destruct (has_document_id _ r0); [exact Hc | by apply Hs].
  - intros [Hin | ->%list_elem_of_singleton]%elem_of_app;
      [by apply Hs | exact Hc].
Qed.

Lemma mark_posted_dates_checked pid pt uri s :
  dates_checked s → dates_checked (mark_posted pid pt uri s).2.
Proof.
  intros Hs r. unfold mark_posted. destruct (field_map pt) as [f|]; [|apply Hs].
  simpl. intros (r0 & -> & Hin)%list_elem_of_fmap.
  destruct (Period.id r0 =? pid); [by apply (Hs r0) | by apply Hs].
Qed.

Lemma run_ops_dates_checked ops : ∀ s,
  dates_checked s → dates_checked (run_ops ops s).
Proof.
  induction ops as [|o ops IH]; intros s Hs; [done|].
  apply IH. destruct o; simpl;
    auto using upsert_dates_checked, mark_posted_dates_checked.
Qed.

(** X11: whatever upserts and [mark_posted] calls ran since the database was
    created, no two rows share a [document_id] or an [id], every id is
    positive and at most the AUTOINCREMENT mark, and no stored period
    ends before it was posted. *)
Theorem reachable_store_invariant (ops : list store_op) :
  store_wf (run_ops ops empty_store)
  ∧ dates_checked (run_ops ops empty_store).
Proof.
  split.
  - apply run_ops_wf, empty_store_wf.
  - apply run_ops_dates_checked. intros r Hr. inversion Hr.
Qed.

Lemma posted_desc_total : Total posted_desc.
Proof.
  intros a b. unfold posted_desc.
  destruct (Z.leb_spec (Period.posted_date b) (Period.posted_date a));
    [by left | right].
  apply Is_true_true, Z.leb_le. lia.
Qed.


Lemma end_asc_total : Total end_asc.
Proof.
  intros a b. unfold end_asc.
  destruct (Z.leb_spec (Period.comment_end_date a) (Period.comment_end_date b));
    [by left | right].
  apply Is_true_true, Z.leb_le. lia.
Qed.

Lemma Sorted_take {A} (R : relation A) (l : list A) n :
  Sorted R l → Sorted R (take n l).
Proof.
  intros H. revert n. induction H as [|x l Hl IH Hx]; intros [|n]; simpl;
    try constructor; [apply IH|].
  destruct Hx as [|y l' Hxy]; destruct n; simpl; by constructor.
Qed.

Lemma new_unposted_true cutoff utc r :
  Db.new_unposted cutoff utc r = true ↔
  cutoff ≤ Period.posted_date r ∧ Period.posted_new r = false
  ∧ utc ≤ Period.comment_end_date r.
Proof.
  unfold Db.new_unposted.
  rewrite !andb_true_iff, !Z.leb_le, negb_true_iff. tauto.
Qed.

Lemma new_periods_rows day_zero today utc_today days limit s rows :
  Db.get_new_comment_periods day_zero today utc_today days limit s = Ok rows →
  rows ⊆ merge_sort posted_desc
           (List.filter (Db.new_unposted (today - days) utc_today)
                        (comment_periods s))
  ∧ Sorted posted_desc rows.
Proof.
  unfold Db.get_new_comment_periods. destruct (_ || _); [done|].
  set (sorted := merge_sort posted_desc _).
  assert (Sorted posted_desc sorted) as Hsorted
    by apply Sorted_merge_sort, posted_desc_total.
  unfold sql_limit. destruct limit as [m|]; [|by intros [= <-]].
  destruct (m =? 0); [by intros [= <-]|].
  destruct (_ || _); [done|].
  destruct (m <? 0); intros [= <-]; [done|].
  split; [apply subseteq_take | by apply Sorted_take].
Qed.

Lemma new_periods_rows_mem day_zero today utc_today days limit s rows r :
  Db.get_new_comment_periods day_zero today utc_today days limit s = Ok rows →
  r ∈ rows →
  r ∈ comment_periods s
  ∧ today - days ≤ Period.posted_date r
  ∧ Period.posted_new r = false
  ∧ utc_today ≤ Period.comment_end_date r.
Proof.
  intros [Hsub _]%new_periods_rows Hr. apply Hsub in Hr.
  rewrite merge_sort_Permutation, list_elem_of_In, filter_In in Hr.
  destruct Hr as [Hin Hq]. apply new_unposted_true in Hq.
  by rewrite list_elem_of_In.
Qed.



Lemma posted_in_upsert pid f d now s :
  posted_in pid f s → posted_in pid f (upsert_comment_period d now s).2.
Proof.
  intros (Hwf & Hseq & Hflag).
  split; [by apply upsert_wf|].
  destruct (check_dates (Draft.posted_date d) (Draft.comment_end_date d)) eqn:Hc.
  - rewrite upsert_accepts by done. simpl. split; [lia|].
    unfold upsert_rows. destruct (existsb _ _).
    + intros r' (r & -> & Hin)%list_elem_of_fmap.
      destruct (has_document_id _ r); [|by apply Hflag].
      intros Hid. rewrite do_update_flags. by apply (Hflag r).
    + intros r [Hin | ->%list_elem_of_singleton]%elem_of_app; [by apply Hflag|].
      simpl. intros Hid. lia.
  - rewrite upsert_rejects by done. done.
Qed.

Lemma posted_in_mark_posted pid f pid' pt uri s :
  posted_in pid f s → posted_in pid f (mark_posted pid' pt uri s).2.
Proof.
  intros (Hwf & Hseq & Hflag).
  split; [by apply mark_posted_wf|].
  unfold mark_posted. destruct (field_map pt) as [g|]; [|done]. simpl.
  split; [done|].
  intros r' (r & -> & Hin)%list_elem_of_fmap.
  destruct (Period.id r =? pid'); [|by apply Hflag].
  simpl. intros Hid. rewrite set_flag_value, (Hflag r Hin Hid). done.
Qed.

Lemma posted_in_run_ops pid f ops : ∀ s,
  posted_in pid f s → posted_in pid f (run_ops ops s).
Proof.
  induction ops as [|o ops IH]; intros s Hs; [done|].
  apply IH. destruct o; simpl;
    auto using posted_in_upsert, posted_in_mark_posted.
Qed.

Lemma mark_posted_posted_in pid pt uri f s :
  store_wf s → pid ≤ sqlite_sequence s → field_map pt = Some f →
  posted_in pid f (mark_posted pid pt uri s).2.
Proof.
  intros Hwf Hseq Hf. split; [by apply mark_posted_wf|].
  unfold mark_posted. rewrite Hf. simpl. split; [done|].
  intros r' (r & -> & Hin)%list_elem_of_fmap.
  destruct (Z.eqb_spec (Period.id r) pid); [|done].
  intros _. rewrite set_flag_value. destruct f; simpl; by rewrite orb_true_r.
Qed.

(** X13: a milestone is dispatched at most once.  Once [mark_posted] has run
    for a period the store has given an id to, no later run of upserts
    and [mark_posted] calls brings the period back into the selection of
    that milestone: not into [get_new_comment_periods] after ["new"], and
    not into [get_closing_soon] for the days of that reminder. *)
Theorem posted_period_is_not_selected_again
    (s : store) (pid : Z) (pt : string) (uri : option string)
    (f : flag_field) (ops : list store_op) :
  store_wf s → pid ≤ sqlite_sequence s → field_map pt = Some f →
  let s' := run_ops ops (mark_posted pid pt uri s).2 in
  (∀ r, r ∈ comment_periods s' → Period.id r = pid → flag_value f r = true)
  ∧ (f = F_posted_new →
       ∀ day_zero today utc_today days limit rows,
         Db.get_new_comment_periods day_zero today utc_today days limit s' = Ok rows →
         ∀ r, r ∈ rows → Period.id r ≠ pid)
  ∧ (∀ today days rows,
       reminder_field days = Some f →
       get_closing_soon today days s' = Ok rows →
       ∀ r, r ∈ rows → Period.id r ≠ pid).
Proof.
  intros Hwf Hseq Hf s'.
  assert (posted_in pid f s') as (_ & _ & Hflag).
  { apply posted_in_run_ops. by apply mark_posted_posted_in. }
  split; [exact Hflag|]. split.
  - intros -> day_zero today utc_today days limit rows Hq r Hr Hid.
    destruct (new_periods_rows_mem _ _ _ _ _ _ _ _ Hq Hr) as (Hin & _ & Hnew & _).
    specialize (Hflag r Hin Hid). simpl in Hflag. congruence.
  - intros today days rows Hd Hq r Hr Hid.
    rewrite (get_closing_soon_rows _ _ _ _ Hd) in Hq. injection Hq as <-.
    rewrite merge_sort_Permutation, list_elem_of_In, filter_In in Hr.
    destruct Hr as [Hin Hc]. apply closing_on_true in Hc as [_ Hc].
    apply list_elem_of_In in Hin.
    specialize (Hflag r Hin Hid). congruence.
Qed.

Lemma posted_period_is_not_selected_again_witness :
  store_wf ingested_store ∧ 2 ≤ sqlite_sequence ingested_store
  ∧ ∀ rows,
      get_closing_soon 0 7
        (run_ops [Upsert fda_draft 9; Upsert epa_update 10]
           (mark_posted 2 "7day" None ingested_store).2) = Ok rows →
      ∀ r, r ∈ rows → Period.id r ≠ 2.
Proof.
  assert (store_wf ingested_store) as Hwf.
  { apply (run_ops_wf [Upsert epa_draft 1; Upsert fda_draft 2]), empty_store_wf. }
  split; [exact Hwf|]. split; [vm_compute; discriminate|].
  intros rows.
  apply (proj2 (proj2 (posted_period_is_not_selected_again ingested_store 2 "7day"
           None F_posted_7day_reminder [Upsert fda_draft 9; Upsert epa_update 10]
           Hwf ltac:(vm_compute; discriminate) eq_refl)) 0 7 rows eq_refl).
Defined.

Lemma upsert_all_wf calls : ∀ s, store_wf s → store_wf (upsert_all calls s).
Proof.
  induction calls as [|c calls IH]; intros s Hs; [done|].
  apply IH. by apply upsert_wf.
Qed.

Lemma upsert_documents d now s :
  list_to_set (Period.document_id <$> comment_periods (upsert_comment_period d now s).2)
  =@{gset string}
  list_to_set (Period.document_id <$> comment_periods s)
  ∪ (if check_dates (Draft.posted_date d) (Draft.comment_end_date d)
     then {[ Draft.document_id d ]} else ∅).
Proof.
  rewrite upsert_rows_spec.
  destruct (check_dates _ _); [|set_solver].
  unfold upsert_rows. destruct (existsb _ _) eqn:E.
  - rewrite fmap_update_proj by done.
    apply existsb_has_document_id in E.
    apply set_eq. intros x. rewrite elem_of_union, !elem_of_list_to_set.
    rewrite elem_of_singleton. naive_solver.
  - rewrite fmap_app, list_to_set_app_L. simpl. set_solver.
Qed.

Lemma upsert_all_documents calls : ∀ s,
  list_to_set (Period.document_id <$> comment_periods (upsert_all calls s))
  =@{gset string}
  list_to_set (Period.document_id <$> comment_periods s)
  ∪ list_to_set (accepted_documents calls).
Proof.
  induction calls as [|c calls IH]; intros s.
  - simpl. unfold accepted_documents. simpl. set_solver.
  - change (upsert_all (c :: calls) s)
      with (upsert_all calls (upsert_comment_period c.1 c.2 s).2).
    rewrite IH, upsert_documents. unfold accepted_documents. simpl.
    destruct (check_dates _ _); simpl; set_solver.
Qed.

(** X14: [get_stats] counts documents, not calls.  After any run of upserts
    on a new database [total_periods] is the number of distinct document
    ids among the calls the date constraint accepted.  In every store
    [open_periods] is the length of [get_all_open_periods], and neither it
    nor [posted_periods] exceeds [total_periods]. *)
Theorem stats_count_documents :
  (∀ calls utc_today,
     total_periods (Db.get_stats utc_today (upsert_all calls empty_store))
     = size (list_to_set (accepted_documents calls) : gset string))
  ∧ (∀ utc_today s,
       open_periods (Db.get_stats utc_today s)
       = length (Db.get_all_open_periods utc_today s)
       ∧ (open_periods (Db.get_stats utc_today s)
          ≤ total_periods (Db.get_stats utc_today s))%nat
       ∧ (posted_periods (Db.get_stats utc_today s)
          ≤ total_periods (Db.get_stats utc_today s))%nat).
Proof.
  split.
  - intros calls utc_today. simpl.
    pose proof (upsert_all_wf calls empty_store empty_store_wf) as [Hnd _ _ _].
    pose proof (upsert_all_documents calls empty_store) as Hdocs.
    simpl in Hdocs. rewrite union_empty_l_L in Hdocs.
    rewrite <- Hdocs, size_list_to_set by done. by rewrite length_fmap.
  - intros utc_today s. simpl. split; [|split].
    + unfold Db.get_all_open_periods. by rewrite merge_sort_Permutation.
    + apply filter_length_le.
    + apply filter_length_le.
Qed.

(** X15: a receipt is recorded exactly when one is given.  A valid
    [mark_posted] for an id that fits SQLite's 64-bit INTEGER appends one row to [bot_posts] when [post_uri] is a
    string that is not empty and none otherwise; it never adds or removes
    a period; for an id no period has it leaves every period as it was,
    and still records the receipt; and a second call with the same id and
    type changes no period. *)
Theorem mark_posted_receipts
    (pid : Z) (pt : string) (uri : option string) (f : flag_field) (s : store) :
  field_map pt = Some f → - 2 ^ 63 ≤ pid < 2 ^ 63 →
  let s' := (mark_posted pid pt uri s).2 in
  bot_posts s' =
    bot_posts s ++
    match uri with
    | Some (String c rest) =>
        [{| comment_period_id := pid; post_type := pt;
            post_uri := String c rest |}]
    | _ => []
    end
  ∧ length (comment_periods s') = length (comment_periods s)
  ∧ ((∀ r, r ∈ comment_periods s → Period.id r ≠ pid) →
     comment_periods s' = comment_periods s)
  ∧ comment_periods (mark_posted pid pt uri s').2 = comment_periods s'.
Proof.
  intros Hf _ s'. subst s'. unfold mark_posted. rewrite Hf. simpl.
  split; [|split; [|split]].
  - destruct uri as [[|c rest]|]; simpl; by rewrite ?app_nil_r.
  - by rewrite length_fmap.
  - intros Hno. rewrite <- (list_fmap_id (comment_periods s)) at 2.
    apply list_fmap_ext. intros i r Hr. simpl.
    apply list_elem_of_lookup_2, Hno in Hr.
    by destruct (Z.eqb_spec (Period.id r) pid).
  - rewrite <- list_fmap_compose. apply list_fmap_ext. intros i r _. simpl.
    destruct (Z.eqb_spec (Period.id r) pid) as [E|E]; simpl.
    + rewrite E, Z.eqb_refl. by destruct r, f.
    + by destruct (Z.eqb_spec (Period.id r) pid).
Qed.

Lemma mark_posted_receipts_witness :
  field_map "new" = Some F_posted_new
  ∧ total_posts (Db.get_stats 0 (mark_posted 7 "new" (Some "at://receipt"%string)
                                   ingested_store).2) = 1%nat
  ∧ comment_periods (mark_posted 7 "new" (Some "at://receipt"%string)
                       ingested_store).2
    = comment_periods ingested_store.
Proof.
  split; [reflexivity|].
  destruct (mark_posted_receipts 7 "new" (Some "at://receipt"%string)
              F_posted_new ingested_store eq_refl ltac:(lia))
    as (Hposts & _ & Hrows & _).
  split.
  - cbv [Db.get_stats total_posts]. cbv zeta in Hposts. rewrite Hposts.
    reflexivity.
  - apply Hrows. intros r Hr.
    assert (r ∈ comment_periods ingested_store → Period.id r ≠ 7) as H; [|by apply H].
    vm_compute. intros Hin.
    repeat (apply elem_of_cons in Hin as [-> | Hin]; [discriminate|]).
    inversion Hin.
Defined.

(** ** More on the fetch engine *)

Lemma time_sleep_sent seconds w :
  sent (time_sleep seconds w).2 = sent w.
Proof.
  unfold time_sleep. destruct (negb _); [done|]. by destruct (negb _).
Qed.

Lemma rate_limit_sent rate_limit w :
  sent (_rate_limit rate_limit w).2 = sent w.
Proof.
  unfold _rate_limit. destruct (negb _).
  - pose proof (time_sleep_sent
                  (rate_limit - (now w - last_request_time w)) w) as H.
    destruct (time_sleep _ w) as [[u|e] w1]; simpl in *; done.
  - done.
Qed.

Lemma attempts_unfold server rq k attempt w :
  attempts server rq (S k) attempt w =
  match server (sent w) with
  | Responded r =>
      if status_code r =? 429 then
        let* seconds := lift (retry_after_seconds r) in
        do time_sleep (inject_Z seconds) then
        attempts server rq k (attempt + 1)
      else if (500 <=? status_code r) && (status_code r <? 600) then
        do time_sleep (inject_Z (2 ^ attempt)) then
        attempts server rq k (attempt + 1)
      else if (400 <=? status_code r) && (status_code r <? 500) then
        ret None
      else
        ret (Some r)
  | Timeout | ConnectionError =>
      do time_sleep (inject_Z (2 ^ attempt)) then
      attempts server rq k (attempt + 1)
  | RequestException => ret None
  end (requested rq w).
Proof. reflexivity. Qed.

Lemma attempts_sent_bound server rq remaining : ∀ attempt w,
  (sent w ≤ sent (attempts server rq remaining attempt w).2
   ≤ sent w + remaining)%nat.
Proof.
  induction remaining as [|k IH]; intros attempt w; [simpl; lia|].
  rewrite attempts_unfold.
  assert (∀ seconds w1,
    sent w1 = S (sent w) →
    (sent w ≤ sent ((do time_sleep seconds then
                     attempts server rq k (attempt + 1)) w1).2
     ≤ sent w + S k)%nat) as Hstep.
  { intros seconds w1 Hw1. unfold bind.
    pose proof (time_sleep_sent seconds w1) as Hs.
    destruct (time_sleep seconds w1) as [[u|e] w2]; simpl in *; [|lia].
    specialize (IH (attempt + 1) w2). lia. }
  destruct (server (sent w)) as [r| | |]; try (by apply Hstep); [|simpl; lia].
  destruct (status_code r =? 429).
  - unfold bind at 1 3, lift.
    destruct (retry_after_seconds r) as [seconds|e]; [by apply Hstep|simpl; lia].
  - destruct (_ && _); [by apply Hstep|].
    destruct (_ && _); simpl; lia.
Qed.

(** X5: [fetch_page] never sends more than [max_retries] requests, whatever
    the server answers and whether the call returns or raises; with
    [max_retries] at 0 or below it sends none. *)
Theorem fetch_page_request_bound
    (server : nat → reply) (rate_limit : Q) (rq : request)
    (max_retries : Z) (w : world) :
  (sent w ≤ sent (fetch_page server rate_limit rq max_retries w).2
   ≤ sent w + Z.to_nat max_retries)%nat.
Proof.
  unfold fetch_page, bind.
  pose proof (rate_limit_sent rate_limit w) as Hs.
  destruct (_rate_limit rate_limit w) as [[u|e] w1]; simpl in *; [|lia].
  pose proof (attempts_sent_bound server rq (Z.to_nat max_retries) 0 w1). lia.
Qed.

Lemma time_sleep_ok_sent seconds w u w' :
  time_sleep seconds w = (Ok u, w') → sent w' = sent w.
Proof. intros H. pose proof (time_sleep_sent seconds w). by rewrite H in *. Qed.

Lemma attempts_returns_reply server rq remaining : ∀ attempt w r w',
  attempts server rq remaining attempt w = (Ok (Some r), w') →
  ok r = true ∧ status_code r ≠ 429
  ∧ ∃ n, sent w' = S n ∧ (sent w ≤ n)%nat ∧ server n = Responded r.
Proof.
  induction remaining as [|k IH]; intros attempt w r w'; [done|].
  rewrite attempts_unfold.
  assert (∀ seconds w1,
    sent w1 = S (sent w) →
    (do time_sleep seconds then attempts server rq k (attempt + 1)) w1
      = (Ok (Some r), w') →
    ok r = true ∧ status_code r ≠ 429
    ∧ ∃ n, sent w' = S n ∧ (sent w ≤ n)%nat ∧ server n = Responded r) as Hstep.
  { intros seconds w1 Hw1. unfold bind.
    destruct (time_sleep seconds w1) as [[u|e] w2] eqn:Hs; [|done].
    apply time_sleep_ok_sent in Hs. intros H.
    apply IH in H as (? & ? & n & ? & ? & ?).
    split; [done|]. split; [done|]. exists n. repeat split; [done|lia|done]. }
  destruct (server (sent w)) as [r0| | |] eqn:Hr; try (by apply Hstep); [|done].
  destruct (Z.eqb_spec (status_code r0) 429).
  - unfold bind at 1, lift.
    destruct (retry_after_seconds r0) as [seconds|e']; [by apply Hstep|done].
  - destruct ((500 <=? status_code r0) && (status_code r0 <? 600)) eqn:H5;
      [by apply Hstep|].
    destruct ((400 <=? status_code r0) && (status_code r0 <? 500)) eqn:H4;
      [done|].
    intros [= <- <-]. split.
    + unfold ok. apply negb_true_iff.
      destruct (Z.leb_spec 400 (status_code r0)),
               (Z.ltb_spec (status_code r0) 600),
               (Z.leb_spec 500 (status_code r0)),
               (Z.ltb_spec (status_code r0) 500); simpl in *; try done; lia.
    + split; [done|]. exists (sent w). simpl. by repeat split.
Qed.

Lemma fetch_page_reply_of_server server rate_limit rq max_retries w w' r :
  fetch_page server rate_limit rq max_retries w = (Ok (Some r), w') →
  ∃ n, server n = Responded r.
Proof.
  unfold fetch_page, bind.
  destruct (_rate_limit rate_limit w) as [[u|e] w1]; [|done]. intros H.
  apply attempts_returns_reply in H as (_ & _ & n & _ & _ & Hn). by exists n.
Qed.

Lemma rate_limit_last_request rate_limit w w' :
  _rate_limit rate_limit w = (Ok tt, w') → last_request_time w' = now w'.
Proof.
  unfold _rate_limit. destruct (negb _).
  - destruct (time_sleep _ w) as [[u|e] w1]; [|done]. by intros [= <-].
  - by intros [= <-].
Qed.

(** X6: what [fetch_page] returns is never an error response: a returned
    response is the server's answer to the last request sent, its status
    is outside 400..599, and it is truthy for the callers' [if not
    response]. *)
Theorem fetch_page_returns_last_reply
    (server : nat → reply) (rate_limit : Q) (rq : request)
    (max_retries : Z) (w w' : world) (r : response) :
  fetch_page server rate_limit rq max_retries w = (Ok (Some r), w') →
  ok r = true
  ∧ (status_code r < 400 ∨ 600 ≤ status_code r)
  ∧ ∃ n, sent w' = S n ∧ (sent w ≤ n)%nat ∧ server n = Responded r.
Proof.
  unfold fetch_page, bind.
  pose proof (rate_limit_sent rate_limit w) as Hs.
  destruct (_rate_limit rate_limit w) as [[u|e] w1]; [|done].
  simpl in Hs. intros H.
  apply attempts_returns_reply in H as (Hok & _ & n & ? & ? & ?).
  split; [done|]. split.
  - unfold ok in Hok. apply negb_true_iff, andb_false_iff in Hok. lia.
  - exists n. repeat split; [done|lia|done].
Qed.

Lemma fetch_page_returns_last_reply_witness :
  ∃ w', fetch_page rate_limited_once 1 a_request 3 start
        = (Ok (Some (success (VDict ∅))), w')
        ∧ ok (success (VDict ∅)) = true
        ∧ ∃ n, sent w' = S n ∧ rate_limited_once n = Responded (success (VDict ∅)).
Proof.
  eexists. split; [vm_compute; reflexivity|].
  destruct (fetch_page_returns_last_reply rate_limited_once 1 a_request 3 start
              _ (success (VDict ∅)) ltac:(vm_compute; reflexivity))
    as (Hok & _ & n & Hn & _ & Hr).
  split; [exact Hok|]. exists n. split; [exact Hn | exact Hr].
Defined.

(** X7: success after transient failures: when the first [k] attempts meet
    a 5xx, a timeout or a connection error and the next one a response
    whose status is below 400 or from 600 up, [fetch_page] returns that
    response, after [k + 1] requests and the backoffs 1, 2, 4, ... *)
Theorem fetch_page_recovers
    (server : nat → reply) (rate_limit : Q) (rq : request)
    (max_retries : Z) (w w1 : world) (k : Z) (r : response) :
  0 ≤ k < max_retries → max_retries ≤ 34 →
  _rate_limit rate_limit w = (Ok tt, w1) →
  (∀ i, (i < Z.to_nat k)%nat → retryable (server (sent w1 + i)%nat) = true) →
  server (sent w1 + Z.to_nat k)%nat = Responded r →
  (status_code r < 400 ∨ 600 ≤ status_code r) →
  ∃ w', fetch_page server rate_limit rq max_retries w = (Ok (Some r), w')
        ∧ sent w' = S (Z.to_nat k + sent w1)
        ∧ trace w' = trace w1 ++ backoff_trace rq (Z.to_nat k) 0 ++ [Get rq].
Proof.
  intros Hk Hm Hp Hall Hr Hs.
  exists (requested rq (backed_off rq (Z.to_nat k) 0 w1)).
  rewrite (fetch_page_paced _ _ _ _ _ _ Hp).
  replace (Z.to_nat max_retries)
    with (Z.to_nat k + S (Z.to_nat (max_retries - k - 1)))%nat by lia.
  rewrite attempts_backoff_run; [|done|lia..].
  rewrite (attempts_success _ _ _ _ _ r); [| |done].
  - simpl. rewrite backed_off_sent, backed_off_trace.
    by rewrite <- app_assoc.
  - rewrite backed_off_sent. by rewrite Nat.add_comm.
Qed.

Lemma fetch_page_recovers_witness :
  ∃ w', fetch_page second_try 1 a_request 3 start
        = (Ok (Some (success (VDict ∅))), w')
        ∧ sent w' = 2%nat
        ∧ trace w' = [Get a_request; Sleep 1; Get a_request].
Proof.
  apply (fetch_page_recovers second_try 1 a_request 3 start
           (_rate_limit 1 start).2 1 (success (VDict ∅)));
    [lia | lia | reflexivity | | reflexivity | simpl; lia].
  intros i Hi. assert (i = O) as -> by lia. reflexivity.
Defined.

(** X8: pacing: when [_rate_limit] returns, the clock is at least
    [rate_limit] past the previous [last_request_time], it has not gone
    back, the new [last_request_time] is the clock, and no request was
    sent. *)
Theorem rate_limit_paces (rate_limit : Q) (w w' : world) :
  _rate_limit rate_limit w = (Ok tt, w') →
  (last_request_time w + rate_limit <= now w')%Q
  ∧ (now w <= now w')%Q
  ∧ last_request_time w' = now w'
  ∧ sent w' = sent w.
Proof.
  unfold _rate_limit.
  destruct (Qle_bool rate_limit (now w - last_request_time w)) eqn:E; simpl.
  - intros [= <-]. simpl. apply Qle_bool_iff in E.
    repeat split; [lra | lra].
  - unfold time_sleep.
    destruct (Qle_bool 0 (rate_limit - (now w - last_request_time w))) eqn:E0;
      simpl; [|done].
    destruct (Qle_bool (rate_limit - (now w - last_request_time w)) SLEEP_MAX);
      simpl; [|done].
    intros [= <-]. simpl. apply Qle_bool_iff in E0.
    repeat split; lra.
Qed.

Lemma rate_limit_paces_witness :
  ∃ w', _rate_limit 1 hurried = (Ok tt, w')
        ∧ (last_request_time hurried + 1 <= now w')%Q
        ∧ trace w' = [Sleep (3 # 4)].
Proof.
  eexists. split; [vm_compute; reflexivity|]. split; [|reflexivity].
  apply (rate_limit_paces 1 hurried _ ltac:(vm_compute; reflexivity)).
Defined.

(** X9: A [Retry-After] that is not a number of seconds is not handled: when
    the first response is a 429 whose header [int] rejects, or reads as
    a negative number, the ValueError leaves [fetch_page] after that one
    request. *)
Theorem fetch_page_retry_after_rejected
    (server : nat → reply) (rate_limit : Q) (rq : request)
    (max_retries : Z) (w w1 : world) (r : response) (header : string) :
  _rate_limit rate_limit w = (Ok tt, w1) → 0 < max_retries →
  server (sent w1) = Responded r → status_code r = 429 →
  retry_after r = Some header →
  (py_int header = Raise ValueError ∨ ∃ n, py_int header = Ok n ∧ n < 0) →
  fetch_page server rate_limit rq max_retries w
  = (Raise ValueError, requested rq w1).
Proof.
  intros Hp Hm Hr Hs Hh Hbad.
  rewrite (fetch_page_paced _ _ _ _ _ _ Hp).
  replace (Z.to_nat max_retries) with (S (Z.to_nat max_retries - 1)) by lia.
  destruct Hbad as [He | (n & Hn & Hneg)].
  - apply (attempts_retry_after_raises _ _ _ _ _ r); [done..|].
    unfold retry_after_seconds. by rewrite Hh.
  - simpl. unfold bind at 1, session_get. rewrite Hr, Hs. simpl.
    unfold bind, lift, retry_after_seconds. rewrite Hh, Hn.
    by rewrite time_sleep_negative.
Qed.

Lemma fetch_page_retry_after_rejected_witness :
  py_int "-5" = Ok (-5)
  ∧ fetch_page (λ _, Responded (too_many_requests (Some "-5"%string)))
      1 a_request 3 start
    = (Raise ValueError, requested a_request (_rate_limit 1 start).2).
Proof.
  split; [reflexivity|].
  apply (fetch_page_retry_after_rejected _ 1 a_request 3 start
           (_rate_limit 1 start).2 (too_many_requests (Some "-5"%string))
           "-5"%string); [reflexivity | lia | reflexivity..|].
  right. exists (-5). split; [reflexivity | lia].
Defined.

(** ** More on pagination *)

Lemma fetch_pages_unfold key_order server fuel page acc w :
  fetch_pages key_order server (S fuel) page acc w =
  match fetch_page server 1 (documents_request page) 3 w with
  | (Ok None, w1) => (Ok (Finished acc), w1)
  | (Ok (Some r), w1) =>
      if negb (ok r) then (Ok (Finished acc), w1)
      else
        match json r with
        | None => (Ok (Finished acc), w1)
        | Some data =>
            match py_contains "data" data with
            | Raise e => (Raise e, w1)
            | Ok false => (Ok (Finished acc), w1)
            | Ok true =>
                match py_getitem data "data" with
                | Raise e => (Raise e, w1)
                | Ok documents =>
                    match py_iter key_order documents with
                    | Raise e => (Raise e, w1)
                    | Ok items =>
                        match is_last_page page data with
                        | Raise e => (Raise e, w1)
                        | Ok true => (Ok (Finished (acc ++ items)), w1)
                        | Ok false =>
                            fetch_pages key_order server fuel (page + 1) (acc ++ items) w1
                        end
                    end
                end
            end
        end
  | (Raise e, w1) => (Raise e, w1)
  end.
Proof.
  simpl. unfold bind at 1.
  destruct (fetch_page server 1 (documents_request page) 3 w)
    as [[[r|]|e] w1]; try done.
  destruct (negb (ok r)); [done|]. destruct (json r) as [data|]; [|done].
  unfold bind, lift, ret, py_extend, is_last_page, and_then.
  destruct (py_contains "data" data) as [[|]|]; try done. simpl.
  destruct (py_getitem data "data") as [documents|]; [|done].
  destruct (py_iter key_order documents) as [items|]; [|done].
  destruct (py_get data "meta" (VDict ∅)) as [meta|]; [|done].
  destruct (py_get meta "totalPages" (VInt 1)) as [total|]; [|done].
  by destruct (py_int_ge page total) as [[|]|].
Qed.

(** X2: a search read to its end returns every page.  When the pages before
    [last] were fetched, each announcing more, and page [last] reports no
    further page, the result is the items of all of them in order.  A
    page without ['meta'] counts as the last: [totalPages] defaults
    to 1. *)
Theorem pagination_complete
    (key_order : gmap string value → list string)
    (server : nat → reply) (w : world) (pages : list (list value))
    (last : Z) (w1 w' : world) (items : list value) (fuel : nat) :
  pages_fetched key_order server 1 w pages last w1 →
  page_last key_order server last w1 items w' →
  (length pages < fuel)%nat →
  get_new_comment_periods key_order server fuel w
  = (Ok (Finished (concat pages ++ items)), w')
  ∧ (∀ page (data : gmap string value), 1 ≤ page → data !! "meta" = None →
       is_last_page page (VDict data) = Ok true).
Proof.
  intros Hp (r & data & documents & Hf & Hok & Hj & Hc & Hg & Hi & Hl) Hfuel.
  split.
  - unfold get_new_comment_periods.
    replace fuel with (length pages + S (fuel - length pages - 1))%nat by lia.
    rewrite (fetch_pages_through _ _ _ _ _ _ _ Hp), fetch_pages_unfold.
    by rewrite Hf, Hok, Hj, Hc, Hg, Hi, Hl.
  - intros page d Hpage Hm. unfold is_last_page, and_then. simpl.
    rewrite Hm. simpl. rewrite lookup_empty. simpl. apply f_equal.
    apply Qle_bool_iff. by rewrite <- Zle_Qle.
Qed.

Lemma pagination_complete_witness :
  get_new_comment_periods document_order two_pages 5 start
  = (Ok (Finished [document "A"; document "B"; document "C"]),
     (fetch_page two_pages 1 (documents_request 2) 3
        (fetch_page two_pages 1 (documents_request 1) 3 start).2).2).
Proof.
  apply (pagination_complete document_order two_pages start [[document "A"; document "B"]] 2
           (fetch_page two_pages 1 (documents_request 1) 3 start).2
           (fetch_page two_pages 1 (documents_request 2) 3
              (fetch_page two_pages 1 (documents_request 1) 3 start).2).2
           [document "C"] 5).
  - eapply pages_fetched_cons; [|apply pages_fetched_nil].
    exists (success (search_page [document "A"; document "B"] 2)),
           (search_page [document "A"; document "B"] 2),
           (VList [document "A"; document "B"]),
           (VDict {[ "totalPages" := VInt 2 ]}), (VInt 2).
    repeat split; reflexivity.
  - exists (success (VDict {[ "data" := VList [document "C"] ]})),
           (VDict {[ "data" := VList [document "C"] ]}),
           (VList [document "C"]).
    repeat split; reflexivity.
  - simpl. lia.
Defined.

Lemma py_int_ge_mono (bound page : Z) (total : value) :
  py_int_ge bound total = Ok true → bound ≤ page →
  py_int_ge page total = Ok true.
Proof.
  destruct total as [|b|[q| | |]| | |]; simpl; try done.
  - intros [= H] Hle. f_equal. destruct b; lia.
  - intros [= H] Hle. f_equal. apply Qle_bool_iff in H. apply Qle_bool_iff.
    apply Qle_trans with (inject_Z bound); [done|]. by rewrite <- Zle_Qle.
Qed.

Lemma fetch_pages_bounded key_order server bound :
  pages_bounded server bound →
  ∀ fuel page acc w,
    (Z.to_nat (bound - page) < fuel)%nat →
    (fetch_pages key_order server fuel page acc w).1 ≠ Ok OutOfFuel.
Proof.
  intros Hb. induction fuel as [|fuel IH]; intros page acc w Hfuel; [lia|].
  rewrite fetch_pages_unfold.
  destruct (fetch_page server 1 (documents_request page) 3 w)
    as [[[r|]|e] w1] eqn:Hf; try done.
  destruct (negb (ok r)); [done|].
  destruct (json r) as [data|] eqn:Hj; [|done].
  destruct (py_contains "data" data) as [[|]|]; try done.
  destruct (py_getitem data "data") as [documents|]; [|done].
  destruct (py_iter key_order documents) as [items|]; [|done].
  destruct (is_last_page page data) as [[|]|] eqn:Hl; try done.
  apply IH.
  apply fetch_page_reply_of_server in Hf as (n & Hn).
  unfold is_last_page, and_then in Hl.
  destruct (py_get data "meta" (VDict ∅)) as [meta|] eqn:Hm; [|done].
  destruct (py_get meta "totalPages" (VInt 1)) as [total|] eqn:Ht; [|done].
  assert (py_int_ge bound total = Ok true) as Hge.
  { apply (Hb n r data total Hn Hj). unfold and_then. by rewrite Hm. }
  destruct (Z.le_gt_cases bound page) as [Hle|Hgt].
  - rewrite (py_int_ge_mono _ _ _ Hge Hle) in Hl. done.
  - lia.
Qed.

(** X3: the loop ends when the server's page counts are bounded: if no
    answer reports more than [bound] pages, [get_new_comment_periods]
    returns or raises within [max 1 bound] rounds. *)
Theorem pagination_terminates
    (key_order : gmap string value → list string)
    (server : nat → reply) (bound : Z) (fuel : nat) (w : world) :
  pages_bounded server bound →
  (Z.to_nat (bound - 1) < fuel)%nat →
  (get_new_comment_periods key_order server fuel w).1 ≠ Ok OutOfFuel.
Proof. intros Hb Hfuel. by apply (fetch_pages_bounded key_order server bound). Qed.

Lemma pagination_terminates_witness :
  pages_bounded second_page_down 3
  ∧ (get_new_comment_periods document_order second_page_down 3 start).1 ≠ Ok OutOfFuel.
Proof.
  assert (pages_bounded second_page_down 3) as Hb.
  { intros [|n] r data total; simpl; intros [= <-]; [|discriminate].
    simpl. intros [= <-]. vm_compute. intros [= <-]. reflexivity. }
  split; [exact Hb|].
  apply (pagination_terminates document_order second_page_down 3 3 start Hb). simpl. lia.
Defined.

Lemma never_last_round key_order server page acc w fuel :
  never_last key_order server → (last_request_time w <= now w)%Q →
  ∃ items w1,
    fetch_pages key_order server (S fuel) page acc w
    = fetch_pages key_order server fuel (page + 1) (acc ++ items) w1
    ∧ sent w1 = S (sent w)
    ∧ (last_request_time w1 <= now w1)%Q.
Proof.
  intros Hnl Hclock.
  destruct (rate_limit_returns 1 w Hclock) as (w0 & Hp & Hs0 & _).
  { unfold SLEEP_MAX. change 1%Q with (inject_Z 1). by rewrite <- Zle_Qle. }
  destruct (Hnl (sent w0)) as (r & data & documents & items & total
                               & Hr & Hst & Hj & Hc & Hg & Hi & Ht & Hnever).
  exists items, (requested (documents_request page) w0).
  assert (fetch_page server 1 (documents_request page) 3 w
          = (Ok (Some r), requested (documents_request page) w0)) as Hf.
  { rewrite (fetch_page_paced _ _ _ _ _ _ Hp).
    by apply attempts_success. }
  split; [|split].
  - rewrite fetch_pages_unfold, Hf.
    assert (ok r = true) as ->.
    { unfold ok. apply negb_true_iff, andb_false_iff. lia. }
    simpl. rewrite Hj, Hc, Hg, Hi. unfold is_last_page.
    unfold and_then in *.
    destruct (py_get data "meta" (VDict ∅)) as [meta|]; [|done].
    by rewrite Ht, Hnever.
  - simpl. by rewrite Hs0.
  - simpl. apply rate_limit_last_request in Hp as ->. apply Qle_refl.
Qed.

(** X4: nothing bounds the number of pages: against a server whose every
    page reports a [totalPages] no page number reaches, the loop is still
    running after any number of rounds, one request into each. *)
Theorem pagination_without_end
    (key_order : gmap string value → list string)
    (server : nat → reply) (fuel : nat) (w : world) :
  never_last key_order server → (last_request_time w <= now w)%Q →
  ∃ w', get_new_comment_periods key_order server fuel w = (Ok OutOfFuel, w')
        ∧ sent w' = (sent w + fuel)%nat.
Proof.
  intros Hnl. unfold get_new_comment_periods.
  generalize 1 at 1. generalize (@nil value). revert w.
  induction fuel as [|fuel IH]; intros w acc page Hclock.
  - exists w. split; [done | simpl; lia].
  - destruct (never_last_round key_order server page acc w fuel Hnl Hclock)
      as (items & w1 & Heq & Hs & Hc).
    destruct (IH w1 (acc ++ items) (page + 1) Hc) as (w' & H & Hs').
    exists w'. split; [by rewrite Heq | lia].
Qed.

Lemma pagination_without_end_witness :
  never_last document_order endless
  ∧ ∃ w', get_new_comment_periods document_order endless 25 start = (Ok OutOfFuel, w')
          ∧ sent w' = 25%nat.
Proof.
  assert (never_last document_order endless) as Hnl.
  { intros n.
    exists (success (VDict {[ "data" := VList [document "A"];
                              "meta" := VDict {[ "totalPages" := VNum PosInf ]} ]})),
           (VDict {[ "data" := VList [document "A"];
                     "meta" := VDict {[ "totalPages" := VNum PosInf ]} ]}),
           (VList [document "A"]), [document "A"], (VNum PosInf).
    repeat split; try reflexivity. simpl. lia. }
  split; [exact Hnl|].
  apply (pagination_without_end document_order endless 25 start Hnl). vm_compute. discriminate.
Defined.

(** ** More on enrichment *)

Lemma prefix_slash c rest :
  String.prefix "/" (String c rest) = Ascii.eqb c "/".
Proof.
  unfold String.prefix. destruct (Ascii.eqb_spec c "/") as [->|Hne].
  - destruct (ascii_dec "/" "/"); [|congruence]. by destruct rest.
  - destruct (ascii_dec "/" c) as [E|]; [congruence|done].
Qed.

Lemma string_app_cons a (s t : string) :
  (String a s ++ t)%string = String a (s ++ t).
Proof. reflexivity. Qed.

Lemma string_app_empty (s : string) : (s ++ EmptyString)%string = s.
Proof.
  induction s as [|a s IH]; [done|]. by rewrite string_app_cons, IH.
Qed.

Lemma string_app_snoc (cur : string) c s :
  ((cur ++ String c EmptyString) ++ s)%string = (cur ++ String c s)%string.
Proof.
  induction cur as [|a cur IH]; [done|]. by rewrite !string_app_cons, IH.
Qed.

Lemma split_from_no_slash s : ∀ cur,
  has_char "/" s = false → split_from "/" s 0 cur = [(cur ++ s)%string].
Proof.
  induction s as [|c s IH]; intros cur H; simpl in H.
  - simpl. by rewrite string_app_empty.
  - apply orb_false_iff in H as [Hc Hs].
    change (split_from "/" (String c s) 0 cur)
      with (if String.prefix "/" (String c s)
            then cur :: split_from "/" s (String.length "/" - 1) EmptyString
            else split_from "/" s 0 (cur ++ String c EmptyString)).
    rewrite prefix_slash, Hc, IH by done. by rewrite string_app_snoc.
Qed.

Lemma split_last_segment base num : ∀ cur,
  has_char "/" num = false →
  List.last (split_from "/" (base ++ String "/" num) 0 cur) EmptyString = num.
Proof.
  induction base as [|c base IH]; intros cur H.
  - change (EmptyString ++ String "/" num)%string with (String "/" num).
    change (split_from "/" (String "/" num) 0 cur)
      with (if String.prefix "/" (String "/" num)
            then cur :: split_from "/" num (String.length "/" - 1) EmptyString
            else split_from "/" num 0 (cur ++ String "/" EmptyString)).
    rewrite prefix_slash. simpl Ascii.eqb. cbv iota.
    change (String.length "/" - 1)%nat with O.
    rewrite split_from_no_slash by done. done.
  - change ((String c base) ++ String "/" num)%string
      with (String c (base ++ String "/" num)).
    change (split_from "/" (String c (base ++ String "/" num)) 0 cur)
      with (if String.prefix "/" (String c (base ++ String "/" num))
            then cur :: split_from "/" (base ++ String "/" num)
                          (String.length "/" - 1) EmptyString
            else split_from "/" (base ++ String "/" num) 0
                   (cur ++ String c EmptyString)).
    change (String.length "/" - 1)%nat with O.
    destruct (String.prefix "/" _).
    + specialize (IH EmptyString H).
      destruct (split_from "/" (base ++ String "/" num) 0 "") eqn:E; [|done].
      exfalso. clear -E. revert E. generalize EmptyString at 2.
      induction (base ++ String "/" num)%string as [|a s IHs]; intros cur; [done|].
      change (split_from "/" (String a s) 0 cur)
        with (if String.prefix "/" (String a s)
              then cur :: split_from "/" s (String.length "/" - 1) EmptyString
              else split_from "/" s 0 (cur ++ String a EmptyString)).
      destruct (String.prefix "/" _); [done | apply IHs].
    + apply IH, H.
Qed.

Lemma rstrip_keeps s :
  s ≠ EmptyString → has_char "/" s = false → py_rstrip "/" s = s.
Proof.
  induction s as [|c s IH]; [done|]. intros _ H. simpl in H.
  apply orb_false_iff in H as [Hc Hs]. simpl.
  destruct s as [|c' s'].
  - simpl. by rewrite Hc.
  - rewrite IH by done. done.
Qed.

Lemma rstrip_slashes n : py_rstrip "/" (slashes n) = EmptyString.
Proof. induction n as [|n IH]; simpl; [done|]. by rewrite IH. Qed.

Lemma rstrip_app s t :
  py_rstrip "/" t ≠ EmptyString →
  py_rstrip "/" (s ++ t) = (s ++ py_rstrip "/" t)%string.
Proof.
  intros Ht. induction s as [|c s IH]; [done|].
  rewrite !string_app_cons. simpl py_rstrip.
  rewrite IH. destruct (s ++ py_rstrip "/" t)%string eqn:E; [|done].
  destruct s; [by apply Ht in E | discriminate].
Qed.

Lemma rstrip_trailing num n :
  num ≠ EmptyString → has_char "/" num = false →
  py_rstrip "/" (num ++ slashes n) = num.
Proof.
  intros Hne Hns. induction num as [|c s IH]; [done|].
  simpl in Hns. apply orb_false_iff in Hns as [Hc Hs].
  rewrite string_app_cons. simpl py_rstrip.
  destruct s as [|c' s'].
  - change (EmptyString ++ slashes n)%string with (slashes n).
    rewrite rstrip_slashes. by rewrite Hc.
  - rewrite IH by done. done.
Qed.

Lemma fr_doc_num_last_segment (period : gmap string value)
    (base num : string) (n : nat) :
  dict_get period "federal_register_url"
    = VStr (base ++ String "/" (num ++ slashes n)) →
  num ≠ EmptyString → has_char "/" num = false →
  fr_doc_num period = Ok (Some num).
Proof.
  intros Hurl Hne Hns. unfold fr_doc_num. rewrite Hurl.
  assert (py_rstrip "/" (String "/" (num ++ slashes n)) = String "/" num) as Hr.
  { simpl. rewrite rstrip_trailing by done. by destruct num. }
  assert (truthy (VStr (base ++ String "/" (num ++ slashes n))) = true) as ->.
  { simpl. by destruct base. }
  rewrite rstrip_app by (rewrite Hr; done). rewrite Hr.
  unfold py_split. by rewrite split_last_segment.
Qed.

(** X16: the document number is the last segment of the URL: for a
    [federal_register_url] that ends in a slash, a number without slash
    and any run of trailing slashes, [enrich_period] looks up that
    number.  A URL of slashes only has no number, and the period comes
    back unchanged without a request. *)
Theorem document_number_of_url :
  (∀ (period : gmap string value) (base num : string) (n : nat),
     dict_get period "federal_register_url"
       = VStr (base ++ String "/" (num ++ slashes n)) →
     num ≠ EmptyString → has_char "/" num = false →
     fr_doc_num period = Ok (Some num))
  ∧ (∀ server (period : gmap string value) (n : nat) (w : world),
       dict_get period "federal_register_url" = VStr (slashes n) →
       enrich_period server period w = (Ok period, w)).
Proof.
  split.
  - apply fr_doc_num_last_segment.
  - intros server period n w Hurl. unfold enrich_period, bind, lift, fr_doc_num.
    rewrite Hurl. destruct n as [|n]; [done|].
    assert (truthy (VStr (slashes (S n))) = true) as -> by done.
    rewrite rstrip_slashes. done.
Qed.

Lemma document_number_of_url_witness :
  fr_doc_num primary_period = Ok (Some "2026-00783"%string).
Proof.
  apply (proj1 document_number_of_url primary_period
           "https://www.federalregister.gov/documents" "2026-00783" 0%nat);
    [reflexivity | discriminate | reflexivity].
Defined.

Lemma get_document_attempts server num w w1 :
  _rate_limit (1 # 2) w = (Ok tt, w1) →
  get_document server num w =
  match attempts server (document_request num) 3 0 w1 with
  | (Ok None, w') => (Ok None, w')
  | (Ok (Some r), w') => if negb (ok r) then (Ok None, w') else (Ok (json r), w')
  | (Raise e, w') => (Raise e, w')
  end.
Proof.
  intros Hp. unfold get_document, bind. fold (document_request num).
  rewrite (fetch_page_paced _ _ _ _ _ _ Hp).
  change (Z.to_nat 3) with 3%nat.
  destruct (attempts server (document_request num) 3 0 w1) as [[[r|]|e] w']; try done.
  unfold ret. by destruct (negb (ok r)).
Qed.

Lemma enrich_period_no_document server period num w w' :
  fr_doc_num period = Ok (Some num) → num ≠ EmptyString →
  get_document server num w = (Ok None, w') →
  enrich_period server period w = (Ok period, w').
Proof.
  intros Hn Hne Hg. unfold enrich_period, bind, lift. rewrite Hn.
  destruct (String.eqb_spec num ""); [done|]. by rewrite Hg.
Qed.

(** X17: the enrichment degrades to the period it was given.  With a document
    number in the URL and the pacing done, [enrich_period] returns the
    period itself when all three attempts meet a 5xx response, a timeout
    or a connection error (after three requests and the backoffs 1, 2
    and 4), when the first reply is a 4xx other than 429 or another
    exception of [requests], and when the reply is a success whose body
    is not JSON or is a falsy JSON value; in the last three cases after
    the one request. *)
Theorem enrichment_degrades
    (server : nat → reply) (period : gmap string value) (num : string)
    (w w1 : world) :
  fr_doc_num period = Ok (Some num) → num ≠ EmptyString →
  _rate_limit (1 # 2) w = (Ok tt, w1) →
  ((∀ i, (i < 3)%nat → retryable (server (sent w1 + i)%nat) = true) →
     enrich_period server period w
     = (Ok period, backed_off (document_request num) 3 0 w1))
  ∧ (∀ r, server (sent w1) = Responded r →
       400 ≤ status_code r < 500 → status_code r ≠ 429 →
       enrich_period server period w
       = (Ok period, requested (document_request num) w1))
  ∧ (server (sent w1) = RequestException →
       enrich_period server period w
       = (Ok period, requested (document_request num) w1))
  ∧ (∀ r, server (sent w1) = Responded r →
       status_code r < 400 ∨ 600 ≤ status_code r →
       json r = None ∨ (∃ v, json r = Some v ∧ truthy v = false) →
       enrich_period server period w
       = (Ok period, requested (document_request num) w1)).
Proof.
  intros Hn Hne Hp. repeat split.
  - intros Hall. apply enrich_period_no_document with num; [done..|].
    rewrite (get_document_attempts _ _ _ _ Hp).
    pose proof (attempts_backoff_run server (document_request num) 3 0 0 w1 Hall)
      as Hrun.
    change (3 + 0)%nat with 3%nat in Hrun. rewrite Hrun by lia. done.
  - intros r Hr Hs Hne'. apply enrich_period_no_document with num; [done..|].
    rewrite (get_document_attempts _ _ _ _ Hp).
    by rewrite (attempts_rejected server (document_request num) 2 0 w1 r).
  - intros Hr. apply enrich_period_no_document with num; [done..|].
    rewrite (get_document_attempts _ _ _ _ Hp).
    simpl. unfold bind, session_get. by rewrite Hr.
  - intros r Hr Hs Hj.
    assert (get_document server num w
            = (Ok (json r), requested (document_request num) w1)) as Hg.
    { rewrite (get_document_attempts _ _ _ _ Hp).
      rewrite (attempts_success server (document_request num) 2 0 w1 r) by done.
      assert (ok r = true) as ->; [|done].
      unfold ok. destruct Hs.
      - assert ((400 <=? status_code r) = false) as -> by lia. done.
      - assert ((status_code r <? 600) = false) as -> by lia.
        by rewrite andb_false_r. }
    unfold enrich_period, bind, lift. rewrite Hn.
    destruct (String.eqb_spec num ""); [done|]. rewrite Hg.
    destruct Hj as [-> | (v & -> & Hv)]; [done|]. by rewrite Hv.
Qed.

Lemma enrichment_degrades_witness :
  enrich_period always_down primary_period start
  = (Ok primary_period,
     backed_off (document_request "2026-00783") 3 0 (_rate_limit (1 # 2) start).2)
  ∧ enrich_period down_then_not_found primary_period
      (slept 1 (requested a_request start))
    = (Ok primary_period,
       requested (document_request "2026-00783")
         (_rate_limit (1 # 2) (slept 1 (requested a_request start))).2).
Proof.
  split.
  - apply (proj1 (enrichment_degrades always_down primary_period "2026-00783"
                    start (_rate_limit (1 # 2) start).2
                    eq_refl ltac:(discriminate) eq_refl)).
    intros i _. reflexivity.
  - apply (proj1 (proj2 (enrichment_degrades down_then_not_found primary_period
                           "2026-00783" (slept 1 (requested a_request start))
                           (_rate_limit (1 # 2) (slept 1 (requested a_request start))).2
                           eq_refl ltac:(discriminate) eq_refl)) not_found);
      [reflexivity | simpl; lia | discriminate].
Defined.

(** X18: A JSON body that is truthy but not an object is not caught: when
    the Federal Register answers a successful request with a non-empty
    array or string, a non-zero number or [true], [enrich_period] raises
    an AttributeError at the first [fr_doc.get]. *)
Theorem enrichment_raises_on_non_object
    (server : nat → reply) (period : gmap string value) (num : string)
    (w w1 : world) (r : response) (v : value) :
  fr_doc_num period = Ok (Some num) → num ≠ EmptyString →
  _rate_limit (1 # 2) w = (Ok tt, w1) →
  server (sent w1) = Responded r →
  status_code r < 400 ∨ 600 ≤ status_code r →
  json r = Some v → truthy v = true → (∀ m, v ≠ VDict m) →
  enrich_period server period w
  = (Raise AttributeError, requested (document_request num) w1).
Proof.
  intros Hn Hne Hp Hr Hs Hj Hv Hd.
  assert (get_document server num w
          = (Ok (json r), requested (document_request num) w1)) as Hg.
  { rewrite (get_document_attempts _ _ _ _ Hp).
    rewrite (attempts_success server (document_request num) 2 0 w1 r) by done.
    assert (ok r = true) as ->; [|done].
    unfold ok. destruct Hs.
    - assert ((400 <=? status_code r) = false) as -> by lia. done.
    - assert ((status_code r <? 600) = false) as -> by lia.
      by rewrite andb_false_r. }
  unfold enrich_period, bind, lift. rewrite Hn.
  destruct (String.eqb_spec num ""); [done|]. rewrite Hg, Hj, Hv. simpl.
  destruct v; try done. by destruct (Hd m).
Qed.

Lemma enrichment_raises_on_non_object_witness :
  enrich_period array_reply primary_period start
  = (Raise AttributeError,
     requested (document_request "2026-00783") (_rate_limit (1 # 2) start).2).
Proof.
  apply (enrichment_raises_on_non_object array_reply primary_period "2026-00783"
           start (_rate_limit (1 # 2) start).2
           (success (VList [VStr "2026-00783"])) (VList [VStr "2026-00783"]));
    [reflexivity | discriminate | reflexivity | reflexivity | left; simpl; lia
    | reflexivity | reflexivity | discriminate].
Defined.

(** X19: [enrich_with_federal_register] does not pace its requests: the
    scraper it makes starts with [last_request_time] 0, so with the
    clock at half a second or more no sleep precedes the request, also
    when the caller's own scraper has sent one at this very moment, and
    the caller's [last_request_time] is as before.  For a reply that is
    a success the world it leaves is the one with that single request
    added. *)
Theorem enrichment_is_not_paced
    (server : nat → reply) (period : gmap string value) (num : string)
    (w : world) (r : response) :
  (1 # 2 <= now w)%Q →
  fr_doc_num period = Ok (Some num) → num ≠ EmptyString →
  server (sent w) = Responded r →
  status_code r < 400 ∨ 600 ≤ status_code r →
  ∃ res, enrich_with_federal_register server period w
         = (res, requested (document_request num) w).
Proof.
  intros Hnow Hn Hne Hr Hs. unfold enrich_with_federal_register.
  set (fresh := {| now := now w; last_request_time := 0;
                   sent := sent w; trace := trace w |}).
  set (paced := {| now := now w; last_request_time := now w;
                   sent := sent w; trace := trace w |}).
  assert (_rate_limit (1 # 2) fresh = (Ok tt, paced)) as Hp.
  { unfold _rate_limit. simpl.
    assert (Qle_bool (1 # 2) (now w - 0) = true) as ->; [|done].
    apply Qle_bool_iff. lra. }
  assert (get_document server num fresh
          = (Ok (json r), requested (document_request num) paced)) as Hg.
  { rewrite (get_document_attempts _ _ _ _ Hp).
    rewrite (attempts_success server (document_request num) 2 0 paced r) by done.
    assert (ok r = true) as ->; [|done].
    unfold ok. destruct Hs.
    - assert ((400 <=? status_code r) = false) as -> by lia. done.
    - assert ((status_code r <? 600) = false) as -> by lia.
      by rewrite andb_false_r. }
  unfold enrich_period, bind, lift. rewrite Hn.
  destruct (String.eqb_spec num ""); [done|]. rewrite Hg.
  destruct (json r) as [v|]; [|by eexists].
  destruct (negb (truthy v)); by eexists.
Qed.

Lemma enrichment_is_not_paced_witness :
  ∃ res, enrich_with_federal_register federal_register primary_period busy
         = (res, requested (document_request "2026-00783") busy).
Proof.
  apply (enrichment_is_not_paced federal_register primary_period "2026-00783"
           busy (success (VDict fr_document)));
    [vm_compute; discriminate | reflexivity | discriminate | reflexivity
    | left; simpl; lia].
Defined.

(** *** Keywords *)

Lemma ascii_compare_refl a : Ascii.compare a a = Eq.
Proof. unfold Ascii.compare. apply N.compare_refl. Qed.

Lemma ascii_compare_lt_trans a b c :
  Ascii.compare a b = Lt → Ascii.compare b c = Lt → Ascii.compare a c = Lt.
Proof. unfold Ascii.compare. rewrite !N.compare_lt_iff. lia. Qed.

Lemma string_compare_refl s : String.compare s s = Eq.
Proof. induction s as [|a s IH]; simpl; [done|]. by rewrite ascii_compare_refl. Qed.

Lemma str_lt_irrefl s : ¬ str_lt s s.
Proof. unfold str_lt. by rewrite string_compare_refl. Qed.

Lemma str_lt_trans : Transitive str_lt.
Proof.
  intros a. induction a as [|x a IH]; intros [|y b] [|z c];
    unfold str_lt; simpl; try done.
  destruct (Ascii.compare x y) eqn:Exy; try done.
  - apply Ascii.compare_eq_iff in Exy as ->.
    destruct (Ascii.compare y z); try done. apply IH.
  - intros _. destruct (Ascii.compare y z) eqn:Eyz; try done.
    + apply Ascii.compare_eq_iff in Eyz as ->. by rewrite Exy.
    + by rewrite (ascii_compare_lt_trans _ _ _ Exy Eyz).
Qed.

Lemma str_lt_antisym : AntiSymm (=) str_lt.
Proof.
  intros a b Hab Hba. destruct (str_lt_irrefl a). by eapply str_lt_trans.
Qed.

Lemma elem_of_insert_sorted x y l : y ∈ insert_sorted x l ↔ y = x ∨ y ∈ l.
Proof.
  induction l as [|a l IH]; simpl; [set_solver|].
  destruct (String.compare x a) eqn:E.
  - apply String.compare_eq_iff in E as ->. set_solver.
  - set_solver.
  - rewrite !elem_of_cons, IH. naive_solver.
Qed.

Lemma elem_of_sorted_set y l : y ∈ sorted_set l ↔ y ∈ l.
Proof.
  induction l as [|a l IH]; simpl; [done|].
  rewrite elem_of_insert_sorted, IH. set_solver.
Qed.

Lemma insert_sorted_sorted x l :
  StronglySorted str_lt l → StronglySorted str_lt (insert_sorted x l).
Proof.
  induction 1 as [|a l Hl IH Hall]; simpl; [by repeat constructor|].
  destruct (String.compare x a) eqn:E.
  - by constructor.
  - constructor; [by constructor|]. constructor; [done|].
    eapply Forall_impl; [exact Hall|]. intros z Hz. by eapply str_lt_trans.
  - constructor; [done|]. apply Forall_forall.
    intros z [->|Hz]%elem_of_insert_sorted.
    + unfold str_lt. by rewrite String.compare_antisym, E.
    + rewrite Forall_forall in Hall. by apply Hall.
Qed.

Lemma sorted_set_sorted l : StronglySorted str_lt (sorted_set l).
Proof.
  induction l as [|a l IH]; simpl; [constructor|]. by apply insert_sorted_sorted.
Qed.

Lemma str_sorted_nodup l : StronglySorted str_lt l → NoDup l.
Proof.
  induction 1 as [|a l Hl IH Hall]; constructor; [|done].
  intros Hin. rewrite Forall_forall in Hall. by destruct (str_lt_irrefl a); apply Hall.
Qed.

Lemma sorted_set_ext l1 l2 :
  (∀ x, x ∈ l1 ↔ x ∈ l2) → sorted_set l1 = sorted_set l2.
Proof.
  intros H. pose proof str_lt_antisym.
  apply (StronglySorted_unique str_lt); [apply sorted_set_sorted..|].
  apply NoDup_Permutation; [apply str_sorted_nodup, sorted_set_sorted..|].
  intros x. by rewrite !elem_of_sorted_set.
Qed.

Lemma elem_of_str_of x (l : list value) :
  forallb is_str l = true → x ∈ str_of <$> l ↔ VStr x ∈ l.
Proof.
  intros Hl. rewrite list_elem_of_fmap. split.
  - intros (v & -> & Hv).
    assert (is_str v = true) as Hs.
    { rewrite forallb_forall in Hl. by apply Hl, list_elem_of_In. }
    by destruct v.
  - intros Hv. by exists (VStr x).
Qed.

Lemma existing_topics_strs period existing :
  existing_topics period = Ok existing → forallb is_str existing = true.
Proof.
  unfold existing_topics. destruct (truthy _); [|by intros [= <-]].
  destruct (dict_get period "keywords"); try done. intros [= <-].
  rewrite <- (app_nil_r (VStr <$> _)). by rewrite forallb_is_str_split.
Qed.

Lemma forallb_is_str_ext (l l' : list value) :
  (∀ v, v ∈ l ↔ v ∈ l') → forallb is_str l = true → forallb is_str l' = true.
Proof.
  intros H Hl. rewrite forallb_forall in *. intros v Hv.
  apply Hl, list_elem_of_In, H, list_elem_of_In, Hv.
Qed.

Lemma enhance_keywords period fr_doc existing l enhanced :
  existing_topics period = Ok existing →
  dict_get fr_doc "topics" = VList l → l ≠ [] → forallb is_str l = true →
  enhance period (VDict fr_doc) = Ok enhanced →
  enhanced !! "keywords"
  = Some (VStr (String.concat ", " (sorted_set (str_of <$> existing ++ l)))).
Proof.
  intros He Ht Hne Hl. unfold enhance, and_then, py_get.
  change (default VNone (fr_doc !! "topics")) with (dict_get fr_doc "topics").
  rewrite Ht, He.
  assert (truthy (VList l) = true) as -> by by destruct l.
  unfold join_topics. rewrite forallb_app, Hl, (existing_topics_strs _ _ He).
  simpl. repeat case_match; intros; simplify_eq;
    by rewrite ?lookup_insert_ne, ?lookup_insert_eq by done.
Qed.

(** X20: when the Federal Register document lists topics, all of them
    strings, the merged [keywords] are the keywords the period had and
    the topics, as a set: joined by a comma and a space in strictly
    ascending order, so without duplicates.  Nothing the period had is
    dropped, and the order and the repetitions of the topics in the
    document make no difference. *)
Theorem keywords_are_the_sorted_union
    (period fr_doc : gmap string value) (existing l : list value) :
  existing_topics period = Ok existing →
  dict_get fr_doc "topics" = VList l → l ≠ [] → forallb is_str l = true →
  ∃ enhanced kw,
    enhance period (VDict fr_doc) = Ok enhanced
    ∧ enhanced !! "keywords" = Some (VStr (String.concat ", " kw))
    ∧ StronglySorted str_lt kw
    ∧ (∀ x, x ∈ kw ↔ VStr x ∈ existing ∨ VStr x ∈ l)
    ∧ (∀ fr_doc' l' enhanced',
         dict_get fr_doc' "topics" = VList l' →
         (∀ v, v ∈ l ↔ v ∈ l') →
         enhance period (VDict fr_doc') = Ok enhanced' →
         enhanced' !! "keywords" = enhanced !! "keywords").
Proof.
  intros He Ht Hne Hl.
  destruct (enhance_returns period fr_doc) as [enhanced Hen].
  { unfold topics_mergeable. rewrite Ht, Hl.
    assert (truthy (VList l) = true) as -> by by destruct l. simpl.
    revert He. unfold existing_topics.
    destruct (truthy (dict_get period "keywords")); [|done].
    by destruct (dict_get period "keywords"). }
  exists enhanced, (sorted_set (str_of <$> existing ++ l)).
  pose proof (existing_topics_strs _ _ He) as Hes.
  split; [done|]. split; [by eapply enhance_keywords|].
  split; [apply sorted_set_sorted|]. split.
  - intros x. rewrite elem_of_sorted_set, elem_of_str_of, elem_of_app; [done|].
    by rewrite forallb_app, Hes, Hl.
  - intros fr_doc' l' enhanced' Ht' Hsame Hen'.
    rewrite (enhance_keywords _ _ _ _ _ He Ht Hne Hl Hen).
    rewrite (enhance_keywords period fr_doc' existing l' enhanced' He Ht').
    + do 3 f_equal. apply sorted_set_ext. intros x.
      rewrite !elem_of_str_of, !elem_of_app.
      * by rewrite Hsame.
      * by rewrite forallb_app, Hes, Hl.
      * by rewrite forallb_app, Hes, (forallb_is_str_ext l l').
    + destruct l as [|v l0]; [done|]. intros ->.
      by apply (elem_of_nil v), Hsame, elem_of_cons; left.
    + by apply (forallb_is_str_ext l l').
    + done.
Qed.

Lemma keywords_are_the_sorted_union_witness :
  ∃ enhanced kw,
    enhance primary_period (VDict fr_document) = Ok enhanced
    ∧ enhanced !! "keywords" = Some (VStr (String.concat ", " kw))
    ∧ StronglySorted str_lt kw
    ∧ (∀ x, x ∈ kw ↔ VStr x ∈ [VStr "RIN: 2040-AG18"]
                     ∨ VStr x ∈ [VStr "Water supply"; VStr "Chemicals"])
    ∧ (∀ fr_doc' l' enhanced',
         dict_get fr_doc' "topics" = VList l' →
         (∀ v, v ∈ [VStr "Water supply"; VStr "Chemicals"] ↔ v ∈ l') →
         enhance primary_period (VDict fr_doc') = Ok enhanced' →
         enhanced' !! "keywords" = enhanced !! "keywords").
Proof.
  apply (keywords_are_the_sorted_union primary_period fr_document
           [VStr "RIN: 2040-AG18"] [VStr "Water supply"; VStr "Chemicals"]);
    [reflexivity | reflexivity | discriminate | reflexivity].
Defined.

(** X21: precedence of the document type: whenever the merge returns, a
    truthy [document_type] of the period is kept, and an empty or
    missing one is replaced by the document's [action] when that is
    truthy and left as it was when it is not. *)
Theorem document_type_precedence
    (period fr_doc enhanced : gmap string value) :
  enhance period (VDict fr_doc) = Ok enhanced →
  (truthy (dict_get period "document_type") = true →
     enhanced !! "document_type" = period !! "document_type")
  ∧ (truthy (dict_get period "document_type") = false →
     truthy (dict_get fr_doc "action") = true →
     enhanced !! "document_type" = fr_doc !! "action")
  ∧ (truthy (dict_get fr_doc "action") = false →
     enhanced !! "document_type" = period !! "document_type").
Proof.
  intros H.
  assert (truthy (dict_get fr_doc "action") = true →
          fr_doc !! "action" = Some (dict_get fr_doc "action")) as Hget.
  { unfold dict_get. by destruct (fr_doc !! "action"). }
  revert H. unfold enhance, and_then, py_get.
  change (default VNone (fr_doc !! "action")) with (dict_get fr_doc "action").
  destruct (truthy (dict_get fr_doc "action")) eqn:Ha;
    destruct (truthy (dict_get period "document_type")) eqn:Hd; simpl;
    repeat case_match; intros; simplify_eq; repeat split; intros; try done;
    rewrite ?Hget by done;
    by rewrite ?lookup_insert_ne, ?lookup_insert_eq by done.
Qed.

Lemma document_type_precedence_witness :
  (truthy (dict_get primary_period "document_type") = true →
     enriched_period !! "document_type" = primary_period !! "document_type")
  ∧ (truthy (dict_get primary_period "document_type") = false →
     truthy (dict_get fr_document "action") = true →
     enriched_period !! "document_type" = fr_document !! "action")
  ∧ (truthy (dict_get fr_document "action") = false →
     enriched_period !! "document_type" = primary_period !! "document_type").
Proof.
  apply (document_type_precedence primary_period fr_document enriched_period).
  vm_compute. reflexivity.
Defined.
